(** * E-Commerce assistant: intent routing and retrieval, verified against its specification

    A shallow embedding of the Python sources
      - [apps/api/utils.py]     (order-identifier extraction, record lookup),
      - [apps/api/intents.py]   (phrase taxonomies and the intent cascade),
      - [apps/api/rag.py]       (FAQ corpus, vector index, retrieval),
      - [apps/api/main_ver9.py] (the chat operation and the mutating endpoints).

    Text.  A Python [str] is modelled by a [string] holding one code point per
    character; the model covers the code points U+0000 to U+00FF.  On that
    range [\d], [\w], [str.lower] and [str.strip] are the tables below.
    The replies of the chat operation contain symbols beyond that range, so a
    reply is given by its UTF-8 encoding (the bytes put on the wire). *)

From Stdlib Require Import String Ascii List NArith ZArith QArith Bool Lia.
From Stdlib Require Import DecimalString.
From stdpp Require Import gmap strings.
Import ListNotations.

Local Open Scope string_scope.
Local Open Scope list_scope.

(** ** Characters *)

Module Char.

Definition code (c : ascii) : N := N_of_ascii c.

Definition between (lo hi : N) (c : ascii) : bool :=
  ((lo <=? code c) && (code c <=? hi))%N.

(** [\d] of the [re] module on [str] patterns: the decimal digits. *)
Definition is_digit (c : ascii) : bool := between 48 57 c.

(** [str.isalnum] on U+0000..U+00FF. *)
Definition is_alnum (c : ascii) : bool :=
  is_digit c || between 65 90 c || between 97 122 c
  || between 170 170 c || between 178 179 c || between 181 181 c
  || between 185 186 c || between 188 190 c
  || between 192 214 c || between 216 246 c || between 248 255 c.

(** [\w]: alphanumeric or the underscore. *)
Definition is_word (c : ascii) : bool := is_alnum c || between 95 95 c.

(** [str.lower], one character. *)
Definition lower (c : ascii) : ascii :=
  if between 65 90 c || between 192 214 c || between 216 222 c
  then ascii_of_N (code c + 32) else c.

(** [str.isspace] on U+0000..U+00FF. *)
Definition is_space (c : ascii) : bool :=
  between 9 13 c || between 28 32 c || between 133 133 c || between 160 160 c.

End Char.

(** ** Strings *)

Module Str.

Fixpoint map (f : ascii -> ascii) (s : string) : string :=
  match s with
  | EmptyString => EmptyString
  | String c s' => String (f c) (map f s')
  end.

(** [s.lower()] *)
Definition lower (s : string) : string := map Char.lower s.

Fixpoint starts_with (p s : string) : bool :=
  match p, s with
  | EmptyString, _ => true
  | String a p', String b s' => Ascii.eqb a b && starts_with p' s'
  | String _ _, EmptyString => false
  end.

(** [p in s] *)
Fixpoint contains (p s : string) : bool :=
  starts_with p s ||
  match s with
  | EmptyString => false
  | String _ s' => contains p s'
  end.

Fixpoint forallb (f : ascii -> bool) (s : string) : bool :=
  match s with
  | EmptyString => true
  | String c s' => f c && forallb f s'
  end.

Definition head (s : string) : option ascii :=
  match s with
  | EmptyString => None
  | String c _ => Some c
  end.

Fixpoint last (s : string) : option ascii :=
  match s with
  | EmptyString => None
  | String c EmptyString => Some c
  | String _ s' => last s'
  end.

(** [sep.join(l)] *)
Fixpoint join (sep : string) (l : list string) : string :=
  match l with
  | [] => ""
  | [x] => x
  | x :: l' => x +:+ sep +:+ join sep l'
  end.

Fixpoint lstrip (s : string) : string :=
  match s with
  | String c s' => if Char.is_space c then lstrip s' else s
  | EmptyString => EmptyString
  end.

Fixpoint rstrip (s : string) : string :=
  match s with
  | EmptyString => EmptyString
  | String c s' =>
      match rstrip s' with
      | EmptyString => if Char.is_space c then EmptyString else String c EmptyString
      | r => String c r
      end
  end.

(** [s.strip()] *)
Definition strip (s : string) : string := rstrip (lstrip s).

End Str.

(** ** The pattern [\b\d{4,}\b]

    [re.search] tries the pattern at each position from the left.  At one
    position the pattern asks for a word boundary, then the greedy repetition
    [\d{4,}] which takes digits as long as it can and gives them back one at a
    time when what follows fails, then a word boundary. *)

Module Re.

Definition word_at (c : option ascii) : bool :=
  match c with
  | Some c => Char.is_word c
  | None => false
  end.

(** [\b] between the character before the position ([prev]) and the text
    that starts at the position. *)
Definition boundary (prev : option ascii) (s : string) : bool :=
  xorb (word_at prev) (word_at (Str.head s)).

(** [\d{4,}\b] with [n] digits of the repetition already taken: the
    matched remainder. *)
Fixpoint digits_then_boundary (n : nat) (prev : option ascii) (s : string)
  : option string :=
  let stop := if (4 <=? n)%nat && boundary prev s then Some "" else None in
  match s with
  | String c s' =>
      if Char.is_digit c then
        match digits_then_boundary (S n) (Some c) s' with
        | Some m => Some (String c m)
        | None => stop
        end
      else stop
  | EmptyString => stop
  end.

(** The whole pattern at one position. *)
Definition match_here (prev : option ascii) (s : string) : option string :=
  if boundary prev s then digits_then_boundary 0 prev s else None.

Fixpoint search_from (prev : option ascii) (s : string) : option string :=
  match match_here prev s with
  | Some m => Some m
  | None =>
      match s with
      | EmptyString => None
      | String c s' => search_from (Some c) s'
      end
  end.

(** [re.search(r"\b\d{4,}\b", text)], giving [match.group()]. *)
Definition search (text : string) : option string := search_from None text.

End Re.

(** ** utils.py *)

Definition extract_order_id (text : string) : option string :=
  match Re.search text with
  | Some m => Some m
  | None => None
  end.


(** ** intents.py *)

Definition STRONG_ORDER_ACTIONS : list string :=
  [ "track"; "tracking";
    "where is"; "where's";
    "cancel"; "cancelled";
    "refund my"; "refund order"; "refund status";
    "return my"; "return order"; "return status"; "return request";
    "replace my";
    "order status";
    "shipment status" ].

Definition WEAK_ORDER_ACTIONS : list string :=
  [ "shipment"; "delivered"; "delivery"; "package" ].

Definition has_order_id (query : string) : bool :=
  match Re.search query with
  | Some _ => true
  | None => false
  end.

Definition has_order_action (query : string) : bool :=
  let q := Str.lower query in
  if existsb (fun phrase => Str.contains phrase q) STRONG_ORDER_ACTIONS then true
  else if existsb (fun phrase => Str.contains phrase q && Str.contains "my" q)
            WEAK_ORDER_ACTIONS then true
  else false.

(** The dict [FAQ_KEYWORDS], in its insertion order. *)
Definition FAQ_KEYWORDS : list (string * list string) :=
  [ ("refund",
      [ "refund"; "refunds"; "money back";
        "refund time"; "refund status";
        "refund processing time" ]);
    ("return",
      [ "return"; "returns"; "return item";
        "return window"; "return period";
        "return eligibility"; "return rules" ]);
    ("exchange",
      [ "exchange"; "replacement"; "replace item" ]);
    ("defective",
      [ "defective"; "damaged"; "broken";
        "wrong item"; "incorrect item" ]);
    ("exceptions",
      [ "exception"; "exceptions";
        "excluded"; "exclusion";
        "non refundable"; "non returnable";
        "final sale"; "clearance";
        "special case"; "special conditions" ]);
    ("international",
      [ "international"; "overseas";
        "outside india"; "global";
        "remote area"; "remote location";
        "cross border" ]);
    ("contact",
      [ "contact"; "support";
        "customer care"; "customer support";
        "helpdesk"; "email";
        "phone"; "call";
        "live chat" ]);
    ("shipping",
      [ "shipping"; "delivery";
        "ship"; "deliver";
        "shipping time"; "delivery time" ]);
    ("policy",
      [ "policy"; "terms"; "conditions";
        "rules"; "guidelines" ]) ].

(** [FAQ_KEYWORDS[key]] for a key of the table. *)
Fixpoint faq_keywords (key : string) (table : list (string * list string))
  : list string :=
  match table with
  | [] => []
  | (k, kws) :: table' => if String.eqb k key then kws else faq_keywords key table'
  end.

Definition is_faq_intent (query : string) : bool :=
  let q := Str.lower query in
  existsb (fun kws => existsb (fun kw => Str.contains kw q) (snd kws)) FAQ_KEYWORDS.

Definition policy_phrases : list string :=
  [ "return policy";
    "refund policy";
    "exchange policy";
    "exceptions policy";
    "international returns policy";
    "support policy";
    "rules policy" ].

Definition is_policy_query (query : string) : bool :=
  let q := Str.lower query in
  existsb (fun p => Str.contains p q) policy_phrases.

Definition ESCALATION_KEYWORDS : list string :=
  [ "complaint"; "issue not resolved"; "escalate"; "escalation";
    "agent"; "human support"; "talk to agent"; "customer care";
    "manager"; "supervisor"; "not happy"; "problem persists" ].

Definition is_escalation_intent (query : string) : bool :=
  let q := Str.lower query in
  existsb (fun kw => Str.contains kw q) ESCALATION_KEYWORDS.

(** The dict returned by [classify_intent]. *)
Record Classification := mkClassification {
  intent : string;
  needs_order_id : bool
}.

Definition classify_intent (user_query : string) : Classification :=
  let q := Str.lower user_query in
  let order_id_present := has_order_id q in
  let order_action_present := has_order_action q in
  let is_order_query := order_id_present && order_action_present in
  if is_order_query then
    if Str.contains "refund" q || Str.contains "refund status" q
       || Str.contains "refund order" q then
      mkClassification "refund_status" true
    else if Str.contains "return" q || Str.contains "return status" q
            || Str.contains "return request" q || Str.contains "return order" q then
      mkClassification "return_request" true
    else if Str.contains "track" q || Str.contains "where is my order" q
            || Str.contains "order status" q then
      mkClassification "order_status" true
    else
      mkClassification "order_status" true
  else if is_escalation_intent q then
    mkClassification "escalation" true
  else if existsb (fun kw => Str.contains kw q) (faq_keywords "shipping" FAQ_KEYWORDS) then
    mkClassification "shipping" false
  else if is_faq_intent q then
    mkClassification "faq" false
  else
    mkClassification "general" false.


(** ** Numbers

    The distances reported by the index and the threshold are floating-point
    numbers that the program only compares.  A float is modelled by the
    extended rational it denotes; [<=] is false as soon as a side is NaN. *)

Module Float.

Inductive t := NaN | NegInf | Fin (q : Q) | PosInf.

Definition le (a b : t) : bool :=
  match a, b with
  | NaN, _ | _, NaN => false
  | NegInf, _ => true
  | _, PosInf => true
  | Fin x, Fin y => Qle_bool x y
  | Fin _, NegInf | PosInf, NegInf | PosInf, Fin _ => false
  end.

(** The largest finite single-precision value. *)
Definition FLT_MAX : t := Fin (340282346638528859811704183484516925440 # 1).

End Float.

(** ** Python lists *)

(** [l[i]] for a Python [int]: a negative index counts from the end, and an
    index outside the list raises (here: [None]). *)
Definition py_index {A : Type} (l : list A) (i : Z) : option A :=
  let n := Z.of_nat (List.length l) in
  if (0 <=? i)%Z && (i <? n)%Z then nth_error l (Z.to_nat i)
  else if (- n <=? i)%Z && (i <? 0)%Z then nth_error l (Z.to_nat (n + i))
  else None.

(** ** Collaborators

    The embedding model, the vector index and the text generator are outside
    the repository.  [encode docs] stands for the array [embedder.encode(docs)]
    and [shape] for its [shape]; [flat_index d e] for a fresh flat L2 index of
    dimension [d] to which the vectors [e] were added;
    [index_search ix query k] for the [k] (distance, id) pairs, zipped, that
    [ix.search] reports for the embedding of [query];
    [generator prompt n] for the [generated_text] of the first result. *)

Record Collaborators := {
  Embeddings : Type;
  Index : Type;
  encode : list string -> Embeddings;
  shape : Embeddings -> list nat;
  flat_index : nat -> Embeddings -> Index;
  index_search : Index -> string -> nat -> list (Float.t * Z);
  generator : string -> nat -> string
}.

(** The index that [load_faq_docs] builds from a corpus; there is none when
    [embeddings.shape[1]] raises. *)
Definition build_index (C : Collaborators) (corpus : list string) : option (Index C) :=
  let embeddings := encode C corpus in
  match nth_error (shape C embeddings) 1 with
  | Some d => Some (flat_index C d embeddings)
  | None => None
  end.

(** What the collaborators promise: the embeddings of [n] texts form an
    [n] by [d] array; a search reports [k] pairs, each id a position of the
    indexed corpus or the placeholder [-1], the latter at a distance no
    smaller than [FLT_MAX]. *)
Record IndexContract (C : Collaborators) : Prop := {
  encode_shape : forall corpus,
    exists d, shape C (encode C corpus) = [List.length corpus; d];
  search_length : forall corpus ix query k,
    build_index C corpus = Some ix ->
    List.length (index_search C ix query k) = k;
  search_ids : forall corpus ix query k dist idx,
    build_index C corpus = Some ix ->
    In (dist, idx) (index_search C ix query k) ->
    (0 <= idx < Z.of_nat (List.length corpus))%Z
    \/ (idx = (-1)%Z /\ Float.le Float.FLT_MAX dist = true)
}.

(** ** Effects

    The program reads and replaces the globals [docs] and [index] of rag.py,
    reads the FAQ file, and calls its collaborators.  A computation takes the
    world and gives back either a value or the exception raised, with the
    world it leaves.  The world keeps the list of calls made, oldest first. *)

Inductive Event :=
| EvLoadFaq
| EvSearch (query : string) (k : nat)
| EvGenerate (prompt : string) (max_new_tokens : nat)
| EvLookup (collection : string) (order_id : string).

Inductive Exn :=
| IndexError
| KeyError (key : string)
| AttributeError.

Inductive Outcome (A : Type) :=
| Return (a : A)
| Raise (e : Exn).
Arguments Return {A} a.
Arguments Raise {A} e.

Record World (C : Collaborators) := mkWorld {
  faq_file : list string;
  docs : list string;
  index : option (Index C);
  calls : list Event
}.
Arguments mkWorld {C}.
Arguments faq_file {C}.
Arguments docs {C}.
Arguments index {C}.
Arguments calls {C}.

Definition M (C : Collaborators) (A : Type) : Type :=
  World C -> Outcome A * World C.

Definition ret {C A} (a : A) : M C A := fun w => (Return a, w).

Definition raise {C A} (e : Exn) : M C A := fun w => (Raise e, w).

Definition bind {C A B} (m : M C A) (f : A -> M C B) : M C B :=
  fun w =>
    match m w with
    | (Return a, w') => f a w'
    | (Raise e, w') => (Raise e, w')
    end.

Definition get {C} : M C (World C) := fun w => (Return w, w).

Definition emit {C} (e : Event) : M C unit :=
  fun w => (Return tt, mkWorld (faq_file w) (docs w) (index w) (calls w ++ [e])).

Definition lift {C A} (o : Outcome A) : M C A := fun w => (o, w).

(** [docs = d] and [index = ix] on the globals of rag.py. *)
Definition set_docs {C} (d : list string) : M C unit :=
  fun w => (Return tt, mkWorld (faq_file w) d (index w) (calls w)).

Definition set_index {C} (ix : Index C) : M C unit :=
  fun w => (Return tt, mkWorld (faq_file w) (docs w) (Some ix) (calls w)).

Declare Scope prog_scope.
Delimit Scope prog_scope with prog.
Notation "x <- m ;; k" := (bind m (fun x => k))
  (at level 100, m at next level, right associativity) : prog_scope.
Notation "m ;;; k" := (bind m (fun _ => k))
  (at level 100, right associativity) : prog_scope.
Local Open Scope prog_scope.

(** ** rag.py *)

Section Rag.

Variable C : Collaborators.

Definition load_faq_docs : M C unit :=
  emit EvLoadFaq ;;;
  w <- get ;;
  let docs' := faq_file w in
  set_docs docs' ;;;
  let embeddings := encode C docs' in
  match nth_error (shape C embeddings) 1 with
  | Some d => set_index (flat_index C d embeddings)
  | None => raise IndexError
  end.

(** The loop of [retrieve_docs] over the zipped distances and ids. *)
Fixpoint collect (docs : list string) (threshold : Float.t)
    (hits : list (Float.t * Z)) (results : list string)
  : Outcome (list string) :=
  match hits with
  | [] => Return results
  | (dist, idx) :: hits' =>
      if Float.le dist threshold then
        match py_index docs idx with
        | Some d => collect docs threshold hits' (results ++ [d])
        | None => Raise IndexError
        end
      else collect docs threshold hits' results
  end.

Definition retrieve_docs (query : string) (k : nat) (threshold : Float.t)
  : M C (list string) :=
  w <- get ;;
  (match index w with
   | None => load_faq_docs
   | Some _ => ret tt
   end) ;;;
  w <- get ;;
  match index w with
  | None => raise AttributeError
  | Some ix =>
      emit (EvSearch query k) ;;;
      lift (collect (docs w) threshold (index_search C ix query k) [])
  end.

Definition default_k : nat := 4.
Definition default_threshold : Float.t := Float.Fin (5 # 2).

End Rag.

(** ** The mock record store

    [mock_data] is the JSON object read from the mock-responses file: a dict
    from a collection name to a list of records.  A record is a dict with
    scalar fields (strings and integers) and possibly a list of item dicts
    under ["items"]. *)

Inductive Scalar :=
| SStr (s : string)
| SInt (z : Z).

Record JRecord := mkRecord {
  fields : gmap string Scalar;
  items : option (list (gmap string Scalar))
}.

(** [str(v)] *)
Definition py_str (v : Scalar) : string :=
  match v with
  | SStr s => s
  | SInt z => NilZero.string_of_int (Z.to_int z)
  end.

(** [str(d.get(key))] *)
Definition str_get (d : gmap string Scalar) (key : string) : string :=
  match d !! key with
  | Some v => py_str v
  | None => "None"
  end.

(** [str(order_id)] for the optional identifier. *)
Definition str_order_id (order_id : option string) : string :=
  match order_id with
  | Some s => s
  | None => "None"
  end.

(** Truth value of a record ([if data:]): a dict is true unless empty. *)
Definition record_truthy (rec : JRecord) : bool :=
  negb (bool_decide (fields rec = ∅) && match items rec with None => true | Some _ => false end).

(** ** utils.py, continued *)

Definition find_record (records : list JRecord) (order_id : option string)
  : option JRecord :=
  List.find
    (fun rec =>
       String.eqb (str_get (fields rec) "order_id") (str_order_id order_id)
       || String.eqb (str_get (fields rec) "ticket_id") ("TKT-" +:+ str_order_id order_id))
    records.

(** ** Replies, UTF-8 encoded *)

Module Utf8.

Definition encode_char (c : ascii) : string :=
  if (Char.code c <? 128)%N then String c ""
  else String (ascii_of_N (192 + Char.code c / 64))
         (String (ascii_of_N (128 + Char.code c mod 64)) "").

Fixpoint encode (s : string) : string :=
  match s with
  | EmptyString => ""
  | String c s' => encode_char c +:+ encode s'
  end.

End Utf8.

Definition nl : string := String (ascii_of_N 10) "".
Definition dquote : string := String (ascii_of_N 34) "".

Definition MSG_NEED_ORDER_ID : string :=
  "❗ Please provide a valid order number (e.g., 12345).".

Definition MSG_NOT_ENOUGH_INFO : string :=
  "I don't have enough information to answer that.".

Definition MSG_UNSUPPORTED : string :=
  "ℹ️ This assistant supports order status, refund status, returns, and escalations.".

(** ** main_ver9.py *)

Section Main.

Variable C : Collaborators.
Variable mock_data : gmap string (list JRecord).

(** [data[key]] rendered inside an f-string. *)
Definition field (data : JRecord) (key : string) : M C string :=
  match fields data !! key with
  | Some v => ret (Utf8.encode (py_str v))
  | None => raise (KeyError key)
  end.

(** [mock_data.get(collection, [])] handed to [find_record]. *)
Definition lookup (collection : string) (order_id : option string)
  : M C (option JRecord) :=
  emit (EvLookup collection (str_order_id order_id)) ;;;
  ret (find_record (default [] (mock_data !! collection)) order_id).

Definition item_line (i : gmap string Scalar) : M C string :=
  match i !! "name", i !! "sku", i !! "qty" with
  | None, _, _ => raise (KeyError "name")
  | Some _, None, _ => raise (KeyError "sku")
  | Some _, Some _, None => raise (KeyError "qty")
  | Some name, Some sku, Some qty =>
      ret ("- " +:+ Utf8.encode (py_str name) +:+ " (SKU: " +:+ Utf8.encode (py_str sku)
           +:+ ", Qty: " +:+ Utf8.encode (py_str qty) +:+ ")")
  end.

Fixpoint item_lines (l : list (gmap string Scalar)) : M C (list string) :=
  match l with
  | [] => ret []
  | i :: l' =>
      x <- item_line i ;;
      xs <- item_lines l' ;;
      ret (x :: xs)
  end.

Definition prompt_of (context user_query : string) : string :=
  nl +:+
  "        You are a customer support assistant." +:+ nl +:+
  nl +:+
  "        When answering:" +:+ nl +:+
  "        - Provide a complete and clear response." +:+ nl +:+
  "        - Include all relevant conditions, steps, timelines, and exceptions." +:+ nl +:+
  "        - If multiple sentences in the context relate to the question, combine them into one coherent answer." +:+ nl +:+
  "        - Do not truncate the answer." +:+ nl +:+
  nl +:+
  "        If the context does not contain the answer, reply exactly:" +:+ nl +:+
  "        " +:+ dquote +:+ "I don't have that information." +:+ dquote +:+ nl +:+
  nl +:+
  "        Context:" +:+ nl +:+
  "        " +:+ context +:+ nl +:+
  nl +:+
  "        Customer Question:" +:+ nl +:+
  "        " +:+ user_query +:+ nl +:+
  nl +:+
  "        Answer:" +:+ nl +:+
  "        ".

Definition generate (prompt : string) (max_new_tokens : nat) : M C string :=
  emit (EvGenerate prompt max_new_tokens) ;;;
  ret (generator C prompt max_new_tokens).

(** Truth value of the optional identifier ([not order_id]). *)
Definition order_id_truthy (order_id : option string) : bool :=
  match order_id with
  | Some (String _ _) => true
  | Some EmptyString | None => false
  end.

(** The FAQ branch of [chat]: retrieval, then generation unless nothing
    was retrieved. *)
Definition faq_answer (user_query : string) : M C string :=
  retrieved <- retrieve_docs C user_query default_k default_threshold ;;
  match retrieved with
  | [] => ret MSG_NOT_ENOUGH_INFO
  | _ :: _ =>
      let context := Str.join nl retrieved in
      result <- generate (prompt_of context user_query) 1000 ;;
      ret (Utf8.encode (Str.strip result))
  end.

(** The structured-tools part of [chat]: the record of the collection
    named by the intent, formatted, or the fixed texts. *)
Definition structured_answer (intent : string) (order_id : option string)
  : M C string :=
  let oid := Utf8.encode (str_order_id order_id) in
  if String.eqb intent "order_status" then
    data <- lookup "order_status" order_id ;;
    match data with
    | Some data =>
        if record_truthy data then
          lines <- item_lines (default [] (items data)) ;;
          let items_str := Str.join nl lines in
          status <- field data "status" ;;
          eta <- field data "estimated_delivery" ;;
          ret ("👜 Order #" +:+ oid +:+ " is " +:+ status +:+ " and will arrive by "
               +:+ eta +:+ "." +:+ nl +:+ "Items:" +:+ nl +:+ items_str)
        else ret ("❌ No data found for order #" +:+ oid +:+ ".")
    | None => ret ("❌ No data found for order #" +:+ oid +:+ ".")
    end
  else if String.eqb intent "refund_status" then
    data <- lookup "refund_status" order_id ;;
    match data with
    | Some data =>
        if record_truthy data then
          status <- field data "status" ;;
          amount <- field data "amount" ;;
          timeline <- field data "timeline" ;;
          ret ("🧾 Refund for Order #" +:+ oid +:+ " is in **" +:+ status +:+ "**." +:+ nl
               +:+ "Amount: " +:+ amount +:+ " INR" +:+ nl
               +:+ "Timeline: " +:+ timeline)
        else ret ("❌ No refund record found for order #" +:+ oid +:+ ".")
    | None => ret ("❌ No refund record found for order #" +:+ oid +:+ ".")
    end
  else if String.eqb intent "return_request" then
    data <- lookup "return_request" order_id ;;
    match data with
    | Some data =>
        if record_truthy data then
          item_id <- field data "item_id" ;;
          reason <- field data "reason" ;;
          method <- field data "method" ;;
          label_url <- field data "label_url" ;;
          ret ("📦 Return request for Order #" +:+ oid +:+ ":" +:+ nl
               +:+ "- Item: " +:+ item_id +:+ nl
               +:+ "- Reason: " +:+ reason +:+ nl
               +:+ "- Method: " +:+ method +:+ nl
               +:+ "[Download return label](" +:+ label_url +:+ ")")
        else ret ("❌ No return request found for order #" +:+ oid +:+ ".")
    | None => ret ("❌ No return request found for order #" +:+ oid +:+ ".")
    end
  else if String.eqb intent "escalation" then
    data <- lookup "escalation" order_id ;;
    match data with
    | Some data =>
        if record_truthy data then
          ticket_id <- field data "ticket_id" ;;
          status <- field data "status" ;;
          assigned_to <- field data "assigned_to" ;;
          ret ("⚠️ Escalation created for Order #" +:+ oid +:+ ":" +:+ nl
               +:+ "- Ticket ID: " +:+ ticket_id +:+ nl
               +:+ "- Status: " +:+ status +:+ nl
               +:+ "- Assigned To: " +:+ assigned_to)
        else ret ("❌ No escalation record found for order #" +:+ oid +:+ ".")
    | None => ret ("❌ No escalation record found for order #" +:+ oid +:+ ".")
    end
  else
    ret MSG_UNSUPPORTED.

(** [POST /chat]: the [message] of the request to the [message] of the reply. *)
Definition chat (message : string) : M C string :=
  let user_query := message in
  let classification := classify_intent user_query in
  let intent := intent classification in
  let needs_order_id := needs_order_id classification in
  let order_id := extract_order_id user_query in
  (* Guard *)
  if needs_order_id && negb (order_id_truthy order_id) then
    ret MSG_NEED_ORDER_ID
  (* FAQ *)
  else if String.eqb intent "faq" || String.eqb intent "unknown"
          || is_policy_query user_query then
    faq_answer user_query
  (* Structured tools *)
  else
    structured_answer intent order_id.

(** [POST /reload_faq] *)
Definition reload_faq : M C string :=
  load_faq_docs C ;;;
  ret "FAQ reloaded successfully.".

End Main.

(** ** The mutating endpoints and their idempotency stores *)

Record Ledgers := mkLedgers {
  processed_refunds : gset string;
  processed_returns : gset string
}.

Record RefundResponse := mkRefund {
  refund_order_id : string;
  refund_status : string;
  refund_amount : option Float.t
}.

Record ReturnResponse := mkReturn {
  return_order_id : string;
  return_item_id : string;
  return_reason : string;
  return_method : string
}.

(** [POST /refund/{order_id}] *)
Definition refund_order (order_id : string) (st : Ledgers) : RefundResponse * Ledgers :=
  if bool_decide (order_id ∈ processed_refunds st) then
    (mkRefund order_id "already_refunded" None, st)
  else
    (mkRefund order_id "refund_processed" (Some (Float.Fin (1200 # 1))),
     mkLedgers ({[order_id]} ∪ processed_refunds st) (processed_returns st)).

(** [POST /return/{order_id}] *)
Definition return_order (order_id : string) (st : Ledgers) : ReturnResponse * Ledgers :=
  if bool_decide (order_id ∈ processed_returns st) then
    (mkReturn order_id "XYZ789" "duplicate_request" "pickup", st)
  else
    (mkReturn order_id "XYZ789" "size_issue" "dropoff",
     mkLedgers (processed_refunds st) ({[order_id]} ∪ processed_returns st)).

(** ** A sample instance of the collaborators

    An exact nearest-neighbour index over a one-dimensional embedding (the
    length of the text), with the squared distance, padded with the
    placeholder when the corpus has fewer than [k] entries.  It is used to
    run the program on concrete inputs. *)

Module Sample.

Definition embed (s : string) : Z := Z.of_nat (String.length s).

Definition distance (a b : Z) : Float.t :=
  Float.Fin (inject_Z ((a - b) * (a - b))).

Fixpoint score (query : Z) (pos : Z) (corpus : list Z) : list (Float.t * Z) :=
  match corpus with
  | [] => []
  | v :: corpus' => (distance v query, pos) :: score query (pos + 1) corpus'
  end.

Fixpoint insert (x : Float.t * Z) (l : list (Float.t * Z)) : list (Float.t * Z) :=
  match l with
  | [] => [x]
  | y :: l' => if Float.le (fst x) (fst y) then x :: l else y :: insert x l'
  end.

Fixpoint sort (l : list (Float.t * Z)) : list (Float.t * Z) :=
  match l with
  | [] => []
  | x :: l' => insert x (sort l')
  end.

Definition placeholder : Float.t * Z := (Float.FLT_MAX, (-1)%Z).

Definition search (vectors : list Z) (query : string) (k : nat)
  : list (Float.t * Z) :=
  let hits := firstn k (sort (score (embed query) 0 vectors)) in
  hits ++ repeat placeholder (k - List.length hits).

Definition collab : Collaborators := {|
  Embeddings := list Z;
  Index := list Z;
  encode := List.map embed;
  shape := fun e => [List.length e; 1];
  flat_index := fun _ e => e;
  index_search := search;
  generator := fun _ _ => " Returns are accepted within 30 days. "
|}.

Definition corpus : list string :=
  [ "Returns are accepted within 30 days of delivery.";
    "Refunds are processed in 5-7 business days." ].

(** The world at start-up, before the first load. *)
Definition boot (file : list string) : World collab := mkWorld file [] None [].

(** The world once the module has been imported: [load_faq_docs()] ran. *)
Definition started (file : list string) : World collab :=
  snd (load_faq_docs collab (boot file)).

End Sample.

(** ** Vocabulary of the specification *)

Module Spec.

(** Every character of [d] is a decimal digit. *)
Definition digits (d : string) : Prop := Str.forallb Char.is_digit d = true.

(** A character next to a run, or the end of the text: the run is bounded
    there when no character of the class [inner] stands next to it. *)
Definition bounded (inner : ascii -> bool) (c : option ascii) : Prop :=
  match c with
  | Some c => inner c = false
  | None => True
  end.

(** [text] is [a], then a run [d] of four or more digits, then [b], the
    run being bounded on both sides with respect to [inner]. *)
Definition run_at (inner : ascii -> bool) (text a d b : string) : Prop :=
  text = a +:+ d +:+ b
  /\ digits d
  /\ 4 <= String.length d
  /\ bounded inner (Str.last a)
  /\ bounded inner (Str.head b).

(** [r] is the leftmost such run of [text], or nothing when there is none. *)
Definition first_run (inner : ascii -> bool) (text : string) (r : option string)
  : Prop :=
  match r with
  | Some d =>
      exists a b, run_at inner text a d b
        /\ forall a' d' b', run_at inner text a' d' b' ->
             String.length a <= String.length a'
  | None => forall a d b, ~ run_at inner text a d b
  end.

(** [text] contains a whole word of four or more digits. *)
Definition has_digit_word (text : string) : Prop :=
  exists a d b, run_at Char.is_word text a d b.

(** [phrase] occurs in [text], letter case apart. *)
Definition mentions (phrase text : string) : Prop :=
  exists a b, Str.lower text = a +:+ Str.lower phrase +:+ b.

Definition order_kind (i : string) : Prop :=
  i = "order_status" \/ i = "refund_status" \/ i = "return_request".

(** No call to the generator among the events. *)
Definition no_generation (l : list Event) : Prop :=
  forall prompt n, ~ In (EvGenerate prompt n) l.

(** The world holds a corpus and the index built from it. *)
Definition loaded {C} (w : World C) : Prop :=
  exists ix, index w = Some ix /\ build_index C (docs w) = Some ix.

(** A world the program can be in: before the first load, or loaded. *)
Definition wellformed {C} (w : World C) : Prop :=
  index w = None \/ loaded w.

(** The corpus a retrieval will search: the one in memory, or the one in
    the file when nothing is loaded yet. *)
Definition corpus_in_use {C} (w : World C) : list string :=
  match index w with
  | Some _ => docs w
  | None => faq_file w
  end.

(** The request gets past the guard. *)
Definition passes_guard (message : string) : Prop :=
  needs_order_id (classify_intent message) = false
  \/ extract_order_id message <> None.

(** The request gets past the guard and is sent to the FAQ branch. *)
Definition faq_routed (message : string) : Prop :=
  passes_guard message
  /\ (intent (classify_intent message) = "faq"
      \/ intent (classify_intent message) = "unknown"
      \/ is_policy_query message = true).

End Spec.

(** ** Closed forms used in the proofs *)

Module Aux.

(** The longest prefix of digits, and what follows it. *)
Fixpoint take_digits (s : string) : string :=
  match s with
  | String c s' => if Char.is_digit c then String c (take_digits s') else ""
  | EmptyString => ""
  end.

Fixpoint drop_digits (s : string) : string :=
  match s with
  | String c s' => if Char.is_digit c then drop_digits s' else s
  | EmptyString => ""
  end.

(** The character before the position reached after reading [a], when
    [prev] stood before [a]. *)
Definition prev_of (prev : option ascii) (a : string) : option ascii :=
  match Str.last a with
  | Some c => Some c
  | None => prev
  end.

(** A run of four or more digits [d] followed by [b], with [p] before it. *)
Definition occ (p : option ascii) (d b : string) : Prop :=
  Spec.digits d /\ 4 <= String.length d
  /\ Spec.bounded Char.is_word p /\ Spec.bounded Char.is_word (Str.head b).

(** The world after [load_faq_docs]: the corpus of the file, and its
    index when one could be built. *)
Definition loaded_from {C} (w : World C) : World C :=
  mkWorld (faq_file w) (faq_file w)
    (match build_index C (faq_file w) with
     | Some ix => Some ix
     | None => index w
     end)
    (calls w ++ [EvLoadFaq]).

(** A computation that leaves the file, the corpus and the index alone and
    adds to the calls only events of the class [P]. *)
Definition adds {C A} (P : Event -> Prop) (m : M C A) : Prop :=
  forall w, exists l,
    snd (m w) = mkWorld (faq_file w) (docs w) (index w) (calls w ++ l)
    /\ Forall P l.

Definition is_lookup (e : Event) : Prop :=
  match e with
  | EvLookup _ _ => True
  | _ => False
  end.

End Aux.


(** ** main_ver9.py: the remaining endpoints *)

Record HTTPException := mkHTTPException {
  status_code : nat;
  detail : string
}.

Record Item := mkItem {
  item_sku : string;
  item_name : string;
  item_qty : Z
}.

Record OrderStatusResponse := mkOrderStatus {
  order_order_id : string;
  order_status : string;
  order_estimated_delivery : string;
  order_items : list Item
}.

Record EscalationResponse := mkEscalation {
  escalation_ticket_id : string;
  escalation_status : string;
  escalation_assigned_to : string
}.

(** [GET /order/{order_id}] *)
Definition get_order (order_id : string) : HTTPException + OrderStatusResponse :=
  if String.eqb order_id "error500" then
    inl (mkHTTPException 500 "Internal server error")
  else if String.eqb order_id "notfound" then
    inl (mkHTTPException 404 "Order not found")
  else
    inr (mkOrderStatus order_id "shipped" "2026-01-10" [mkItem "ABC123" "Shoes" 1]).

(** [POST /escalate/{order_id}] *)
Definition escalate_issue (order_id : string) : EscalationResponse :=
  mkEscalation ("TKT-" +:+ order_id) "open" "support_agent_1".

(** ** rag.py: the generator, built on first use

    [build] stands for the pipeline that the tokenizer and the model give;
    the world keeps the global [_generator] and counts the builds. *)

Section Generator.

Variable Pipeline : Type.
Variable build : Pipeline.

Record GenWorld := mkGenWorld {
  _generator : option Pipeline;
  builds : nat
}.

Definition get_generator (w : GenWorld) : Pipeline * GenWorld :=
  match _generator w with
  | None => (build, mkGenWorld (Some build) (S (builds w)))
  | Some g => (g, w)
  end.

(** [n] calls in a row: the pipelines returned and the world left. *)
Fixpoint get_generator_times (n : nat) (w : GenWorld) : list Pipeline * GenWorld :=
  match n with
  | O => ([], w)
  | S n' =>
      let (g, w1) := get_generator w in
      let (gs, w2) := get_generator_times n' w1 in
      (g :: gs, w2)
  end.

End Generator.

(** ** Requests served one after the other *)

Fixpoint serve_refunds (ids : list string) (st : Ledgers)
  : list RefundResponse * Ledgers :=
  match ids with
  | [] => ([], st)
  | id :: ids' =>
      let (r, st1) := refund_order id st in
      let (rs, st2) := serve_refunds ids' st1 in
      (r :: rs, st2)
  end.

Fixpoint serve_returns (ids : list string) (st : Ledgers)
  : list ReturnResponse * Ledgers :=
  match ids with
  | [] => ([], st)
  | id :: ids' =>
      let (r, st1) := return_order id st in
      let (rs, st2) := serve_returns ids' st1 in
      (r :: rs, st2)
  end.

(** ** More vocabulary *)

Module Spec2.

(** The test of [find_record] on one record. *)
Definition record_matches (order_id : option string) (rec : JRecord) : Prop :=
  str_get (fields rec) "order_id" = str_order_id order_id
  \/ str_get (fields rec) "ticket_id" = "TKT-" +:+ str_order_id order_id.

(** The collections that [chat] looks records up in. *)
Definition collections : list string :=
  ["order_status"; "refund_status"; "return_request"; "escalation"].

(** The fields that the reply of a collection reads from the record found,
    in the order it reads them. *)
Definition fields_read (collection : string) : list string :=
  if String.eqb collection "order_status" then ["status"; "estimated_delivery"]
  else if String.eqb collection "refund_status" then ["status"; "amount"; "timeline"]
  else if String.eqb collection "return_request" then
    ["item_id"; "reason"; "method"; "label_url"]
  else if String.eqb collection "escalation" then ["ticket_id"; "status"; "assigned_to"]
  else [].

(** The reply of a collection when no record is found, for the identifier
    as the reply shows it. *)
Definition not_found_text (collection oid : string) : string :=
  if String.eqb collection "order_status" then
    "❌ No data found for order #" +:+ oid +:+ "."
  else if String.eqb collection "refund_status" then
    "❌ No refund record found for order #" +:+ oid +:+ "."
  else if String.eqb collection "return_request" then
    "❌ No return request found for order #" +:+ oid +:+ "."
  else
    "❌ No escalation record found for order #" +:+ oid +:+ ".".

(** The first key of [keys] that the dict lacks. *)
Fixpoint first_missing (d : gmap string Scalar) (keys : list string) : option string :=
  match keys with
  | [] => None
  | k :: keys' =>
      match d !! k with
      | Some _ => first_missing d keys'
      | None => Some k
      end
  end.

(** Every character of [s] is white space. *)
Definition blank (s : string) : Prop := Str.forallb Char.is_space s = true.

(** [c] is no white space, if there is a character. *)
Definition solid (c : option ascii) : Prop :=
  match c with
  | Some c => Char.is_space c = false
  | None => True
  end.

(** The event is no record lookup. *)
Definition no_lookup (e : Event) : Prop :=
  match e with
  | EvLookup _ _ => False
  | _ => True
  end.

(** A computation that leaves the world as it is. *)
Definition quiet {C A} (m : M C A) : Prop := forall w, snd (m w) = w.






End Spec2.

(** * Proofs *)

(** * Facts about strings *)

Module StrFacts.

Lemma app_cons x (a b : string) : String x a +:+ b = String x (a +:+ b).
Proof. reflexivity. Qed.

Lemma app_nil_l (b : string) : "" +:+ b = b.
Proof. reflexivity. Qed.

Lemma app_assoc (a b c : string) : (a +:+ b) +:+ c = a +:+ b +:+ c.
Proof.
  induction a as [|x a IH]; [reflexivity|]. now rewrite !app_cons, IH.
Qed.

Lemma app_nil_r (a : string) : a +:+ "" = a.
Proof.
  induction a as [|x a IH]; [reflexivity|]. now rewrite app_cons, IH.
Qed.

Lemma length_app (a b : string) :
  String.length (a +:+ b) = String.length a + String.length b.
Proof.
  induction a as [|x a IH]; [reflexivity|]. rewrite app_cons. simpl. now rewrite IH.
Qed.

Lemma map_app f (a b : string) : Str.map f (a +:+ b) = Str.map f a +:+ Str.map f b.
Proof.
  induction a as [|x a IH]; [reflexivity|].
  rewrite app_cons. simpl. now rewrite IH, app_cons.
Qed.

Lemma length_map f (a : string) : String.length (Str.map f a) = String.length a.
Proof. induction a as [|x a IH]; simpl; [reflexivity | now rewrite IH]. Qed.

Lemma last_cons c (a : string) :
  Str.last (String c a) = match Str.last a with Some x => Some x | None => Some c end.
Proof.
  revert c. induction a as [|x a IH]; intros c; [reflexivity|].
  change (Str.last (String c (String x a))) with (Str.last (String x a)).
  rewrite IH. now destruct (Str.last a).
Qed.

Lemma last_none (a : string) : Str.last a = None -> a = "".
Proof.
  destruct a as [|c a]; [reflexivity|]. rewrite last_cons.
  now destruct (Str.last a).
Qed.

Lemma last_map f (a : string) : Str.last (Str.map f a) = option_map f (Str.last a).
Proof.
  induction a as [|c a IH]; [reflexivity|].
  cbn [Str.map]. rewrite !last_cons, IH. now destruct (Str.last a).
Qed.

Lemma head_map f (a : string) : Str.head (Str.map f a) = option_map f (Str.head a).
Proof. now destruct a. Qed.

Lemma starts_with_iff (p s : string) :
  Str.starts_with p s = true <-> exists b, s = p +:+ b.
Proof.
  revert s. induction p as [|x p IH]; intros s; simpl.
  - split; [intros _; now exists s | reflexivity].
  - destruct s as [|y s].
    + split; [discriminate | intros [b Hb]; rewrite app_cons in Hb; discriminate].
    + rewrite andb_true_iff, IH. split.
      * intros [Hxy [b ->]]. apply Ascii.eqb_eq in Hxy. subst. now exists b.
      * intros [b Hb]. rewrite app_cons in Hb. injection Hb as -> ->. split; [apply Ascii.eqb_refl | now exists b].
Qed.

(** [p in s] holds exactly when [s] is some text, then [p], then some text. *)
Lemma contains_iff (p s : string) :
  Str.contains p s = true <-> exists a b, s = a +:+ p +:+ b.
Proof.
  induction s as [|y s IH].
  - simpl. rewrite orb_false_r, starts_with_iff. split.
    + intros [b Hb]. now exists "", b.
    + intros [a [b Hb]]. destruct a; [now exists b | rewrite app_cons in Hb; discriminate].
  - cbn [Str.contains]. rewrite orb_true_iff, starts_with_iff, IH. split.
    + intros [[b Hb] | [a [b Hb]]].
      * now exists "", b.
      * exists (String y a), b. now rewrite app_cons, Hb.
    + intros [a [b Hb]]. destruct a as [|x a].
      * left. now exists b.
      * right. rewrite app_cons in Hb. injection Hb as -> ->. now exists a, b.
Qed.

End StrFacts.

(** * The pattern: what [re.search] finds *)

Module ReFacts.
Import StrFacts Aux.

Lemma digit_is_word c : Char.is_digit c = true -> Char.is_word c = true.
Proof. intros H. unfold Char.is_word, Char.is_alnum. now rewrite H. Qed.

Lemma take_drop (s : string) : s = take_digits s +:+ drop_digits s.
Proof.
  induction s as [|c s IH]; [reflexivity|]. simpl.
  destruct (Char.is_digit c); [|reflexivity]. now rewrite app_cons, <- IH.
Qed.

Lemma take_digits_digits (s : string) : Spec.digits (take_digits s).
Proof.
  unfold Spec.digits. induction s as [|c s IH]; [reflexivity|]. simpl.
  destruct (Char.is_digit c) eqn:E; [|reflexivity]. simpl. now rewrite E.
Qed.

Lemma head_drop_digits (s : string) :
  match Str.head (drop_digits s) with
  | Some c => Char.is_digit c = false
  | None => True
  end.
Proof.
  induction s as [|c s IH]; [exact I|]. simpl.
  destruct (Char.is_digit c) eqn:E; [exact IH | exact E].
Qed.

(** A run of digits that stops before a non-digit is the longest one. *)
Lemma run_unique (d b : string) :
  Spec.digits d -> Spec.bounded Char.is_digit (Str.head b) ->
  take_digits (d +:+ b) = d /\ drop_digits (d +:+ b) = b.
Proof.
  unfold Spec.digits. intros Hd Hb. induction d as [|c d IH].
  - rewrite app_nil_l. destruct b as [|x b]; [now split|].
    simpl in Hb. simpl. now rewrite Hb.
  - simpl in Hd. apply andb_true_iff in Hd as [Hc Hd].
    rewrite app_cons. simpl. rewrite Hc.
    destruct (IH Hd) as [-> ->]. now split.
Qed.

Lemma word_bounded_digit_bounded c :
  Spec.bounded Char.is_word c -> Spec.bounded Char.is_digit c.
Proof.
  destruct c as [c|]; [|trivial]. simpl. intros H.
  destruct (Char.is_digit c) eqn:E; [|reflexivity].
  apply digit_is_word in E. congruence.
Qed.

Lemma bounded_word_at c : Spec.bounded Char.is_word c <-> Re.word_at c = false.
Proof. destruct c; simpl; tauto. Qed.

(** Giving digits back never helps: between two digits there is no word
    boundary.  So the repetition succeeds exactly when the longest run is
    long enough and ends at a boundary. *)
Lemma digits_then_boundary_closed (s : string) :
  forall n prev, n = 0 \/ Re.word_at prev = true ->
  Re.digits_then_boundary n prev s =
    if (4 <=? n + String.length (take_digits s))%nat
       && negb (Re.word_at (Str.head (drop_digits s)))
    then Some (take_digits s) else None.
Proof.
  induction s as [|c s IH]; intros n prev Hn.
  - cbn [Re.digits_then_boundary take_digits drop_digits String.length Str.head
         Re.word_at negb].
    rewrite Nat.add_0_r, andb_true_r. unfold Re.boundary. cbn [Str.head Re.word_at].
    destruct (4 <=? n)%nat eqn:E; cbn [andb]; [|reflexivity].
    destruct Hn as [-> | ->]; [discriminate E | reflexivity].
  - cbn [Re.digits_then_boundary take_digits drop_digits].
    destruct (Char.is_digit c) eqn:Hc.
    + rewrite (IH (S n) (Some c)) by (right; simpl; now apply digit_is_word).
      cbn [String.length]. rewrite Nat.add_succ_r. cbn [Nat.add].
      destruct (4 <=? S (n + String.length (take_digits s)))%nat eqn:E1; cbn [andb].
      * destruct (Re.word_at (Str.head (drop_digits s))) eqn:E2; cbn [negb]; [|reflexivity].
        unfold Re.boundary. cbn [Str.head Re.word_at].
        rewrite (digit_is_word c Hc).
        destruct Hn as [-> | ->]; [reflexivity|].
        cbn [xorb]. now rewrite andb_false_r.
      * assert (E3 : (4 <=? n)%nat = false).
        { apply Nat.leb_gt in E1. apply Nat.leb_gt. lia. }
        now rewrite E3.
    + cbn [String.length Str.head Re.word_at]. rewrite Nat.add_0_r.
      unfold Re.boundary. cbn [Str.head Re.word_at].
      destruct (4 <=? n)%nat eqn:E; [|reflexivity]. cbn [andb].
      destruct Hn as [-> | ->]; [discriminate E|].
      cbn [xorb]. now destruct (Char.is_word c).
Qed.

Lemma match_here_closed prev (s : string) :
  Re.match_here prev s =
    if negb (Re.word_at prev)
       && (4 <=? String.length (take_digits s))%nat
       && negb (Re.word_at (Str.head (drop_digits s)))
    then Some (take_digits s) else None.
Proof.
  unfold Re.match_here.
  rewrite digits_then_boundary_closed by now left. cbn [Nat.add].
  destruct (4 <=? String.length (take_digits s))%nat eqn:E.
  - assert (Hw : Re.word_at (Str.head s) = true).
    { destruct s as [|c s]; [discriminate|]. simpl in E |- *.
      destruct (Char.is_digit c) eqn:Hc; [now apply digit_is_word | discriminate]. }
    unfold Re.boundary. rewrite Hw.
    destruct (Re.word_at prev); reflexivity.
  - rewrite andb_false_r. cbn [andb]. now destruct (Re.boundary prev s).
Qed.

(** The pattern matches [d] at a position exactly when a whole word of
    four or more digits starts there. *)
Lemma match_here_iff prev (s d : string) :
  Re.match_here prev s = Some d <-> exists b, s = d +:+ b /\ occ prev d b.
Proof.
  rewrite match_here_closed. unfold occ. split.
  - destruct (Re.word_at prev) eqn:Hp; [discriminate|]. cbn [negb andb].
    destruct (4 <=? String.length (take_digits s))%nat eqn:Hl; [|discriminate].
    destruct (Re.word_at (Str.head (drop_digits s))) eqn:Hb; [discriminate|].
    cbn [negb andb]. intros [= <-]. exists (drop_digits s).
    split; [apply take_drop|]. split; [apply take_digits_digits|].
    split; [now apply Nat.leb_le|]. now rewrite !bounded_word_at.
  - intros [b [-> [Hd [Hl [Hp Hb]]]]].
    destruct (run_unique d b Hd (word_bounded_digit_bounded _ Hb)) as [-> ->].
    apply bounded_word_at in Hp, Hb. rewrite Hp, Hb.
    apply Nat.leb_le in Hl. now rewrite Hl.
Qed.

Lemma match_here_none prev (s : string) :
  Re.match_here prev s = None -> forall d b, s = d +:+ b -> ~ occ prev d b.
Proof.
  intros H d b Hs Ho.
  assert (Re.match_here prev s = Some d) by (apply match_here_iff; eauto).
  congruence.
Qed.

Lemma prev_of_nil prev : prev_of prev "" = prev.
Proof. reflexivity. Qed.

Lemma prev_of_cons prev c (a : string) : prev_of prev (String c a) = prev_of (Some c) a.
Proof. unfold prev_of. rewrite last_cons. now destruct (Str.last a). Qed.

Lemma prev_of_none (a : string) : prev_of None a = Str.last a.
Proof. unfold prev_of. now destruct (Str.last a). Qed.

(** The search returns the leftmost whole word of four or more digits. *)
Lemma search_from_spec (s : string) : forall prev,
  match Re.search_from prev s with
  | Some d =>
      exists a b, s = a +:+ d +:+ b /\ occ (prev_of prev a) d b
        /\ forall a' d' b', s = a' +:+ d' +:+ b' -> occ (prev_of prev a') d' b' ->
             String.length a <= String.length a'
  | None => forall a d b, s = a +:+ d +:+ b -> ~ occ (prev_of prev a) d b
  end.
Proof.
  induction s as [|c s IH]; intros prev; cbn [Re.search_from].
  - destruct (Re.match_here prev "") as [m|] eqn:Hm.
    + apply match_here_iff in Hm as [b [Hs Ho]].
      exists "", b. rewrite app_nil_l, prev_of_nil.
      split; [assumption|]. split; [assumption|]. intros; simpl; lia.
    + intros a d b Hs. destruct a; [|rewrite app_cons in Hs; discriminate].
      rewrite app_nil_l in Hs. rewrite prev_of_nil.
      now apply (match_here_none _ _ Hm).
  - destruct (Re.match_here prev (String c s)) as [m|] eqn:Hm.
    + apply match_here_iff in Hm as [b [Hs Ho]].
      exists "", b. rewrite app_nil_l, prev_of_nil.
      split; [assumption|]. split; [assumption|]. intros; simpl; lia.
    + specialize (IH (Some c)).
      destruct (Re.search_from (Some c) s) as [d|].
      * destruct IH as [a [b [Hs [Ho Hmin]]]].
        exists (String c a), b. rewrite app_cons, prev_of_cons, <- Hs.
        split; [reflexivity|]. split; [assumption|].
        intros a' d' b' Hs' Ho'. destruct a' as [|x a'].
        -- rewrite app_nil_l in Hs'. rewrite prev_of_nil in Ho'.
           now destruct (match_here_none _ _ Hm d' b' Hs' Ho').
        -- rewrite app_cons in Hs'. injection Hs' as <- Hs'.
           rewrite prev_of_cons in Ho'. simpl.
           specialize (Hmin a' d' b' Hs' Ho'). lia.
      * intros a d b Hs Ho. destruct a as [|x a].
        -- rewrite app_nil_l in Hs. rewrite prev_of_nil in Ho.
           now apply (match_here_none _ _ Hm d b Hs).
        -- rewrite app_cons in Hs. injection Hs as <- Hs.
           rewrite prev_of_cons in Ho. now apply (IH a d b Hs).
Qed.

Lemma search_spec (s : string) : Spec.first_run Char.is_word s (Re.search s).
Proof.
  unfold Re.search, Spec.first_run, Spec.run_at.
  pose proof (search_from_spec s None) as H.
  destruct (Re.search_from None s) as [d|].
  - destruct H as [a [b [Hs [Ho Hmin]]]]. rewrite prev_of_none in Ho.
    destruct Ho as [? [? [? ?]]].
    exists a, b. split; [tauto|].
    intros a' d' b' [Hs' [? [? [? ?]]]]. apply (Hmin a' d' b' Hs').
    rewrite prev_of_none. unfold occ. tauto.
  - intros a d b [Hs [? [? [? ?]]]]. apply (H a d b Hs).
    rewrite prev_of_none. unfold occ. tauto.
Qed.

Lemma search_length (s m : string) : Re.search s = Some m -> 4 <= String.length m.
Proof.
  intros H. pose proof (search_spec s) as Hs. rewrite H in Hs.
  destruct Hs as [a [b [[_ [_ [Hl _]]] _]]]. exact Hl.
Qed.

End ReFacts.

(** * Letter case *)

Module CaseFacts.
Import StrFacts.

Ltac by_cases_on_char c :=
  destruct c as [[] [] [] [] [] [] [] []]; vm_compute; reflexivity.

Lemma lower_is_word c : Char.is_word (Char.lower c) = Char.is_word c.
Proof. by_cases_on_char c. Qed.

Lemma lower_is_digit c : Char.is_digit (Char.lower c) = Char.is_digit c.
Proof. by_cases_on_char c. Qed.

Lemma lower_idem c : Char.lower (Char.lower c) = Char.lower c.
Proof. by_cases_on_char c. Qed.

Lemma lower_lower (s : string) : Str.lower (Str.lower s) = Str.lower s.
Proof.
  unfold Str.lower. induction s as [|c s IH]; [reflexivity|].
  simpl. now rewrite lower_idem, IH.
Qed.

Lemma lower_digits (d : string) : Spec.digits d -> Spec.digits (Str.lower d).
Proof.
  unfold Spec.digits, Str.lower. induction d as [|c d IH]; [reflexivity|].
  simpl. rewrite lower_is_digit. intros H.
  apply andb_true_iff in H as [-> H]. now apply IH.
Qed.

Lemma lower_bounded (c : option ascii) :
  Spec.bounded Char.is_word c -> Spec.bounded Char.is_word (option_map Char.lower c).
Proof. destruct c as [c|]; simpl; [now rewrite lower_is_word | trivial]. Qed.

(** Lower-casing keeps the whole words of digits where they are. *)
Lemma lower_run_at (text a d b : string) :
  Spec.run_at Char.is_word text a d b ->
  Spec.run_at Char.is_word (Str.lower text) (Str.lower a) (Str.lower d) (Str.lower b).
Proof.
  intros [-> [Hd [Hl [Ha Hb]]]]. unfold Spec.run_at, Str.lower.
  rewrite !map_app, length_map, last_map, head_map.
  split; [reflexivity|]. split; [now apply lower_digits|].
  split; [assumption|]. split; now apply lower_bounded.
Qed.

End CaseFacts.

(** * The intent cascade *)

Module IntentFacts.
Import StrFacts CaseFacts.

Lemma has_order_id_iff (s : string) :
  has_order_id s = true <-> Spec.has_digit_word s.
Proof.
  unfold has_order_id, Spec.has_digit_word.
  pose proof (ReFacts.search_spec s) as H.
  destruct (Re.search s) as [d|]; simpl in H.
  - split; [|reflexivity]. intros _.
    destruct H as [a [b [H _]]]. now exists a, d, b.
  - split; [discriminate|]. intros [a [d [b Hr]]]. now destruct (H a d b).
Qed.

Lemma has_order_id_lower (s : string) :
  Spec.has_digit_word s -> has_order_id (Str.lower s) = true.
Proof.
  intros [a [d [b H]]]. apply has_order_id_iff.
  exists (Str.lower a), (Str.lower d), (Str.lower b). now apply lower_run_at.
Qed.

Lemma strong_actions_lower p : In p STRONG_ORDER_ACTIONS -> Str.lower p = p.
Proof.
  unfold STRONG_ORDER_ACTIONS. simpl.
  intros H. repeat (destruct H as [<- | H]; [reflexivity|]). contradiction.
Qed.

Lemma mentions_contains (p q : string) :
  Spec.mentions p q <-> Str.contains (Str.lower p) (Str.lower q) = true.
Proof. unfold Spec.mentions. now rewrite contains_iff. Qed.

Lemma not_mentions (p q : string) :
  Str.contains (Str.lower p) (Str.lower q) = false -> ~ Spec.mentions p q.
Proof. intros H Hm. apply mentions_contains in Hm. congruence. Qed.

Lemma has_order_action_lower (q : string) :
  has_order_action (Str.lower q) = has_order_action q.
Proof. unfold has_order_action. now rewrite lower_lower. Qed.

Lemma strong_action_found (p q : string) :
  In p STRONG_ORDER_ACTIONS -> Spec.mentions p q -> has_order_action q = true.
Proof.
  intros Hin Hm. unfold has_order_action.
  apply mentions_contains in Hm. rewrite (strong_actions_lower p Hin) in Hm.
  assert (H : existsb (fun phrase => Str.contains phrase (Str.lower q))
                STRONG_ORDER_ACTIONS = true).
  { apply List.existsb_exists. now exists p. }
  now rewrite H.
Qed.

Lemma no_action_found (q : string) :
  ~ Spec.mentions "my" q ->
  (forall p, In p STRONG_ORDER_ACTIONS -> ~ Spec.mentions p q) ->
  has_order_action q = false.
Proof.
  intros Hmy Hstrong. unfold has_order_action.
  assert (H1 : existsb (fun phrase => Str.contains phrase (Str.lower q))
                 STRONG_ORDER_ACTIONS = false).
  { apply not_true_is_false. intros H.
    apply List.existsb_exists in H as [p [Hin Hp]].
    apply (Hstrong p Hin). apply mentions_contains.
    now rewrite (strong_actions_lower p Hin). }
  assert (H2 : Str.contains "my" (Str.lower q) = false).
  { apply not_true_is_false. intros H. apply Hmy. now apply mentions_contains. }
  rewrite H1, H2.
  assert (H3 : existsb (fun phrase => Str.contains phrase (Str.lower q) && false)
                 WEAK_ORDER_ACTIONS = false).
  { apply not_true_is_false. intros H.
    apply List.existsb_exists in H as [p [_ Hp]]. now rewrite andb_false_r in Hp. }
  now rewrite H3.
Qed.

(** Outside the order branch the cascade gives one of four other labels. *)
Lemma classify_not_order (q : string) :
  has_order_id (Str.lower q) && has_order_action (Str.lower q) = false ->
  In (classify_intent q)
    [ mkClassification "escalation" true; mkClassification "shipping" false;
      mkClassification "faq" false; mkClassification "general" false ].
Proof.
  intros H. unfold classify_intent. cbv zeta. rewrite H.
  destruct (is_escalation_intent (Str.lower q)); [simpl; tauto|].
  destruct (existsb _ _); [simpl; tauto|].
  destruct (is_faq_intent (Str.lower q)); simpl; tauto.
Qed.

Lemma classify_order (q : string) :
  has_order_id (Str.lower q) && has_order_action (Str.lower q) = true ->
  In (classify_intent q)
    [ mkClassification "refund_status" true; mkClassification "return_request" true;
      mkClassification "order_status" true ].
Proof.
  intros H. unfold classify_intent. cbv zeta. rewrite H.
  destruct (_ || _ || _); [simpl; tauto|].
  destruct (_ || _ || _ || _); [simpl; tauto|].
  destruct (_ || _ || _); simpl; tauto.
Qed.

End IntentFacts.

(** C5. A query that contains a whole word of four or more digits and
    mentions a strong order-action phrase is classified as one of the order
    kinds (order_status, refund_status, return_request), with
    needs_order_id = true. *)
Theorem classify_strong_order_query (query phrase : string) :
  Spec.has_digit_word query ->
  In phrase STRONG_ORDER_ACTIONS ->
  Spec.mentions phrase query ->
  Spec.order_kind (intent (classify_intent query))
  /\ needs_order_id (classify_intent query) = true.
Proof.
  intros Hid Hin Hm.
  assert (H : has_order_id (Str.lower query) && has_order_action (Str.lower query) = true).
  { rewrite IntentFacts.has_order_id_lower by assumption.
    rewrite IntentFacts.has_order_action_lower.
    now rewrite (IntentFacts.strong_action_found phrase query). }
  apply IntentFacts.classify_order in H. unfold Spec.order_kind.
  simpl in H. destruct H as [<- | [<- | [<- | []]]]; simpl; tauto.
Qed.

Lemma classify_strong_order_query_witness :
  Spec.has_digit_word "Please CANCEL order 98765 today"
  /\ Spec.mentions "cancel" "Please CANCEL order 98765 today"
  /\ Spec.order_kind (intent (classify_intent "Please CANCEL order 98765 today"))
  /\ needs_order_id (classify_intent "Please CANCEL order 98765 today") = true.
Proof.
  assert (H1 : Spec.has_digit_word "Please CANCEL order 98765 today").
  { exists "Please CANCEL order ", "98765", " today".
    unfold Spec.run_at, Spec.digits. simpl. repeat split; lia. }
  assert (H2 : Spec.mentions "cancel" "Please CANCEL order 98765 today").
  { exists "please ", " order 98765 today". reflexivity. }
  split; [exact H1|]. split; [exact H2|].
  apply (classify_strong_order_query "Please CANCEL order 98765 today" "cancel");
    [exact H1 | simpl; tauto | exact H2].
Defined.

(** C6. When a query mentions neither "my" nor any strong order-action
    phrase, has_order_action is false, whatever weak phrases (shipment,
    delivered, delivery, package) it contains, and the cascade gives no order
    kind: the label is escalation, shipping, faq or general. *)
Theorem weak_action_alone_is_no_order (query : string) :
  ~ Spec.mentions "my" query ->
  (forall p, In p STRONG_ORDER_ACTIONS -> ~ Spec.mentions p query) ->
  has_order_action query = false
  /\ ~ Spec.order_kind (intent (classify_intent query))
  /\ In (intent (classify_intent query)) ["escalation"; "shipping"; "faq"; "general"].
Proof.
  intros Hmy Hstrong.
  pose proof (IntentFacts.no_action_found query Hmy Hstrong) as Ha.
  split; [assumption|].
  assert (H : has_order_id (Str.lower query) && has_order_action (Str.lower query) = false).
  { rewrite IntentFacts.has_order_action_lower, Ha. apply andb_false_r. }
  apply IntentFacts.classify_not_order in H. unfold Spec.order_kind.
  simpl in H. destruct H as [<- | [<- | [<- | [<- | []]]]]; simpl;
    (split; [intros [? | [? | ?]]; discriminate | tauto]).
Qed.

Lemma weak_action_alone_is_no_order_witness :
  Spec.mentions "package" "Has the package been delivered"
  /\ has_order_action "Has the package been delivered" = false
  /\ ~ Spec.order_kind (intent (classify_intent "Has the package been delivered"))
  /\ In (intent (classify_intent "Has the package been delivered"))
       ["escalation"; "shipping"; "faq"; "general"].
Proof.
  split; [exists "has the ", " been delivered"; reflexivity|].
  apply (weak_action_alone_is_no_order "Has the package been delivered").
  - apply IntentFacts.not_mentions. reflexivity.
  - intros p Hp. apply IntentFacts.not_mentions. simpl in Hp.
    repeat (destruct Hp as [<- | Hp]; [reflexivity|]). contradiction.
Defined.

(** C7 (as amended). extract_order_id returns the leftmost run of four or
    more digits that is a whole word, that is, with no letter, digit or
    underscore next to it on either side, and returns nothing when the text
    has no such run; later runs are ignored. *)
Theorem extract_order_id_first_word (text : string) :
  Spec.first_run Char.is_word text (extract_order_id text).
Proof.
  unfold extract_order_id. pose proof (ReFacts.search_spec text) as H.
  now destruct (Re.search text).
Qed.

(** C7 as stated fails: in "ab1234" the run 1234 is a maximal run of four
    digits with a non-digit before it and the end of the text after it, and
    extract_order_id returns nothing. *)
Lemma extract_order_id_not_digit_bounded :
  Spec.run_at Char.is_digit "ab1234" "ab" "1234" ""
  /\ extract_order_id "ab1234" = None
  /\ ~ Spec.first_run Char.is_digit "ab1234" (extract_order_id "ab1234").
Proof.
  assert (H : Spec.run_at Char.is_digit "ab1234" "ab" "1234" "").
  { unfold Spec.run_at, Spec.digits. simpl. repeat split; lia. }
  split; [exact H|]. split; [reflexivity|].
  intros Hf. exact (Hf "ab" "1234" "" H).
Qed.

(** C1. When the classification requires an identifier and none can be
    extracted from the message, chat returns the fixed clarification message
    and leaves the world as it was: nothing is loaded, searched, looked up
    or generated. *)
Theorem guard_short_circuits (C : Collaborators) (mock_data : gmap string (list JRecord))
    (message : string) (w : World C) :
  needs_order_id (classify_intent message) = true ->
  extract_order_id message = None ->
  chat C mock_data message w = (Return MSG_NEED_ORDER_ID, w).
Proof.
  intros Hn He. unfold chat. cbv zeta. rewrite Hn, He. reflexivity.
Qed.

Lemma guard_short_circuits_witness :
  needs_order_id (classify_intent "I want to talk to a manager") = true
  /\ extract_order_id "I want to talk to a manager" = None
  /\ chat Sample.collab ∅ "I want to talk to a manager" (Sample.started Sample.corpus)
     = (Return MSG_NEED_ORDER_ID, Sample.started Sample.corpus).
Proof.
  split; [reflexivity|]. split; [reflexivity|].
  apply (guard_short_circuits Sample.collab ∅ "I want to talk to a manager"
           (Sample.started Sample.corpus)); reflexivity.
Defined.



(** * Retrieval *)

Module RagFacts.
Import Aux.

Lemma float_le_trans (a b c : Float.t) :
  Float.le a b = true -> Float.le b c = true -> Float.le a c = true.
Proof.
  destruct a as [| |x|], b as [| |y|], c as [| |z|]; simpl; try congruence.
  rewrite !Qle_bool_iff. apply Qle_trans.
Qed.

Lemma py_index_In {A} (l : list A) (i : Z) (x : A) :
  py_index l i = Some x -> In x l.
Proof.
  unfold py_index.
  destruct (_ && _); [apply nth_error_In|].
  destruct (_ && _); [apply nth_error_In | discriminate].
Qed.

Lemma py_index_position {A} (l : list A) (i : Z) :
  (0 <= i < Z.of_nat (List.length l))%Z -> exists x, py_index l i = Some x.
Proof.
  intros H. unfold py_index.
  replace ((0 <=? i)%Z && (i <? Z.of_nat (List.length l))%Z) with true
    by (symmetry; apply andb_true_iff; split; [apply Z.leb_le | apply Z.ltb_lt]; lia).
  destruct (nth_error l (Z.to_nat i)) as [x|] eqn:E; [now exists x|].
  apply List.nth_error_None in E. lia.
Qed.

Lemma py_index_last {A} (l : list A) :
  l <> [] -> exists x, py_index l (-1) = Some x.
Proof.
  intros H. unfold py_index.
  assert (Hl : 0 < List.length l) by (destruct l; simpl; [congruence | lia]).
  cbn [Z.leb Z.compare andb].
  replace ((- Z.of_nat (List.length l) <=? -1)%Z && (-1 <? 0)%Z) with true
    by (symmetry; apply andb_true_iff; split; [apply Z.leb_le | apply Z.ltb_lt]; lia).
  destruct (nth_error l (Z.to_nat (Z.of_nat (List.length l) + -1))) as [x|] eqn:E;
    [now exists x|].
  apply List.nth_error_None in E. lia.
Qed.

Section Collect.
Variable docs : list string.

(** What the loop appends comes from [docs], one entry per hit at most. *)
Lemma collect_within (t : Float.t) (hits : list (Float.t * Z)) :
  forall acc l, collect docs t hits acc = Return l ->
  exists s, l = acc ++ s /\ List.length s <= List.length hits
            /\ forall x, In x s -> In x docs.
Proof.
  induction hits as [|[dist idx] hits IH]; intros acc l H; simpl in H.
  - injection H as <-. exists []. rewrite app_nil_r. simpl. split; [reflexivity|].
    split; [lia | tauto].
  - destruct (Float.le dist t).
    + destruct (py_index docs idx) as [d|] eqn:E; [|discriminate].
      destruct (IH _ _ H) as [s [-> [Hl Hin]]].
      exists (d :: s). rewrite <- app_assoc. split; [reflexivity|].
      split; [simpl; lia|].
      intros x [<- | Hx]; [now apply (py_index_In docs idx) | now apply Hin].
    + destruct (IH _ _ H) as [s [-> [Hl Hin]]].
      exists s. split; [reflexivity|]. split; [simpl; lia | assumption].
Qed.

(** A lower threshold keeps a part of what a higher one keeps, in order. *)
Lemma collect_monotone (t1 t2 : Float.t) (hits : list (Float.t * Z)) :
  Float.le t1 t2 = true ->
  forall acc1 acc2 l2, collect docs t2 hits acc2 = Return l2 ->
  exists s1 s2, collect docs t1 hits acc1 = Return (acc1 ++ s1)
                /\ l2 = acc2 ++ s2 /\ sublist s1 s2.
Proof.
  intros Ht. induction hits as [|[dist idx] hits IH]; intros acc1 acc2 l2 H;
    simpl in H |- *.
  - injection H as <-. exists [], []. rewrite !app_nil_r. now repeat split.
  - destruct (Float.le dist t1) eqn:E1.
    + rewrite (float_le_trans _ _ _ E1 Ht) in H.
      destruct (py_index docs idx) as [d|]; [|discriminate].
      destruct (IH (acc1 ++ [d]) _ _ H) as [s1 [s2 [H1 [-> Hs]]]].
      exists (d :: s1), (d :: s2). rewrite H1, <- !app_assoc.
      split; [reflexivity|]. split; [reflexivity|]. now constructor.
    + destruct (Float.le dist t2).
      * destruct (py_index docs idx) as [d|]; [|discriminate].
        destruct (IH acc1 _ _ H) as [s1 [s2 [H1 [-> Hs]]]].
        exists s1, (d :: s2). rewrite H1, <- !app_assoc.
        split; [reflexivity|]. split; [reflexivity|]. now constructor.
      * destruct (IH acc1 _ _ H) as [s1 [s2 [H1 [-> Hs]]]].
        exists s1, s2. now repeat split.
Qed.

(** When every id that passes is valid, the loop returns. *)
Lemma collect_returns (t : Float.t) (hits : list (Float.t * Z)) :
  (forall dist idx, In (dist, idx) hits -> Float.le dist t = true ->
     exists d, py_index docs idx = Some d) ->
  forall acc, exists l, collect docs t hits acc = Return l.
Proof.
  induction hits as [|[dist idx] hits IH]; intros Hok acc; simpl.
  - now exists acc.
  - assert (Hok' : forall dist idx, In (dist, idx) hits -> Float.le dist t = true ->
               exists d, py_index docs idx = Some d)
      by (intros; eapply Hok; [right|]; eassumption).
    destruct (Float.le dist t) eqn:E; [|now apply IH].
    destruct (Hok dist idx (or_introl eq_refl) E) as [d ->]. now apply IH.
Qed.

End Collect.

Section Retrieve.
Variable C : Collaborators.

Lemma load_faq_docs_eq (w : World C) :
  load_faq_docs C w =
    (match build_index C (faq_file w) with
     | Some _ => Return tt
     | None => Raise IndexError
     end, loaded_from w).
Proof.
  unfold load_faq_docs, loaded_from, build_index, bind, emit, get, set_docs,
    set_index, raise. cbn [faq_file docs index calls].
  destruct (nth_error (shape C (encode C (faq_file w))) 1); reflexivity.
Qed.

(** [retrieve_docs] on a world that has an index. *)
Lemma retrieve_docs_indexed query k t (w : World C) ix :
  index w = Some ix ->
  retrieve_docs C query k t w =
    (collect (docs w) t (index_search C ix query k) [],
     mkWorld (faq_file w) (docs w) (index w) (calls w ++ [EvSearch query k])).
Proof.
  intros H. destruct w as [file ds i cs]. simpl in H. subst i. reflexivity.
Qed.

(** [retrieve_docs] on a world without an index loads first, and stops
    there when no index can be built. *)
Lemma retrieve_docs_unindexed query k t (w : World C) :
  index w = None ->
  retrieve_docs C query k t w =
    match build_index C (faq_file w) with
    | Some _ => retrieve_docs C query k t (loaded_from w)
    | None => (Raise IndexError, loaded_from w)
    end.
Proof.
  intros H. destruct w as [file ds i cs]. simpl in H. subst i.
  unfold retrieve_docs. unfold bind at 1 2 5 6. unfold get at 1 3.
  cbn [index]. rewrite load_faq_docs_eq. cbn [faq_file].
  destruct (build_index C file) as [ix|] eqn:E; [|reflexivity].
  unfold loaded_from. cbn [faq_file docs index calls]. rewrite E.
  reflexivity.
Qed.

Lemma loaded_from_loaded (w : World C) ix :
  build_index C (faq_file w) = Some ix -> Spec.loaded (loaded_from w).
Proof.
  intros E. exists ix. unfold loaded_from. simpl. now rewrite E.
Qed.

End Retrieve.

End RagFacts.

(** * The sample index keeps the contract *)

Module SampleFacts.

Lemma In_score query pos (corpus : list Z) dist idx :
  In (dist, idx) (Sample.score query pos corpus) ->
  (pos <= idx < pos + Z.of_nat (List.length corpus))%Z.
Proof.
  revert pos. induction corpus as [|v corpus IH]; intros pos; simpl; [tauto|].
  intros [[= _ <-] | H]; [lia|]. apply IH in H. lia.
Qed.

Lemma In_insert x y (l : list (Float.t * Z)) :
  In x (Sample.insert y l) -> x = y \/ In x l.
Proof.
  induction l as [|z l IH]; simpl.
  - intros [<- | []]. now left.
  - destruct (Float.le (fst y) (fst z)); simpl.
    + intros [<- | H]; tauto.
    + intros [<- | H]; [tauto|]. destruct (IH H); tauto.
Qed.

Lemma In_sort x (l : list (Float.t * Z)) : In x (Sample.sort l) -> In x l.
Proof.
  induction l as [|y l IH]; simpl; [tauto|].
  intros H. apply In_insert in H as [<- | H]; [now left | right; now apply IH].
Qed.

Lemma In_firstn {A} (x : A) k (l : list A) : In x (firstn k l) -> In x l.
Proof.
  revert l. induction k as [|k IH]; intros [|y l]; simpl; try tauto.
  intros [<- | H]; [now left | right; now apply IH].
Qed.

Lemma build_index_eq (corpus : list string) :
  build_index Sample.collab corpus = Some (List.map Sample.embed corpus).
Proof. reflexivity. Qed.

Lemma contract : IndexContract Sample.collab.
Proof.
  split.
  - intros corpus. exists 1. simpl. now rewrite length_map.
  - intros corpus ix query k [= <-]. simpl. unfold Sample.search.
    rewrite length_app, repeat_length.
    pose proof (firstn_le_length k
      (Sample.sort (Sample.score (Sample.embed query) 0 (List.map Sample.embed corpus)))).
    lia.
  - intros corpus ix query k dist idx [= <-]. simpl. unfold Sample.search.
    intros H. apply in_app_or in H as [H | H].
    + left. apply In_firstn, In_sort, In_score in H.
      rewrite length_map in H. lia.
    + right. apply repeat_spec in H. injection H as -> ->. split; reflexivity.
Qed.

End SampleFacts.

(** * Routing *)

Module ChatFacts.
Import Aux RagFacts.

Section Chat.
Variable C : Collaborators.
Variable mock_data : gmap string (list JRecord).

Lemma extracted_truthy (message : string) :
  extract_order_id message <> None ->
  order_id_truthy (extract_order_id message) = true.
Proof.
  unfold extract_order_id. destruct (Re.search message) as [m|] eqn:E; [|congruence].
  intros _. apply ReFacts.search_length in E.
  destruct m; [simpl in E; lia | reflexivity].
Qed.

Lemma guard_open (message : string) :
  Spec.passes_guard message ->
  needs_order_id (classify_intent message)
  && negb (order_id_truthy (extract_order_id message)) = false.
Proof.
  intros [-> | H]; [reflexivity|].
  rewrite (extracted_truthy message H). apply andb_false_r.
Qed.

(** Past the guard, a request labelled faq or unknown, or flagged as a
    policy query, is answered by the FAQ branch. *)
Lemma chat_faq_route (message : string) (w : World C) :
  Spec.faq_routed message ->
  chat C mock_data message w = faq_answer C message w.
Proof.
  intros [Hg Hr]. unfold chat. cbv zeta. rewrite (guard_open message Hg).
  replace (String.eqb (intent (classify_intent message)) "faq"
           || String.eqb (intent (classify_intent message)) "unknown"
           || is_policy_query message) with true; [reflexivity|].
  symmetry. destruct Hr as [-> | [-> | ->]]; [reflexivity | reflexivity |].
  apply orb_true_r.
Qed.


(** A retrieval adds to the calls a search, after a load when the world
    had no index, and never a call to the generator. *)
Lemma retrieve_docs_calls query k t (w : World C) :
  exists l, calls (snd (retrieve_docs C query k t w)) = calls w ++ l
            /\ (index w <> None -> In (EvSearch query k) l)
            /\ Spec.no_generation l.
Proof.
  destruct (index w) as [ix|] eqn:E.
  - rewrite (retrieve_docs_indexed C query k t w ix E). simpl.
    exists [EvSearch query k]. split; [reflexivity|]. split; [now left|].
    intros p n [H | []]. discriminate.
  - rewrite (retrieve_docs_unindexed C query k t w E).
    destruct (build_index C (faq_file w)) as [ix|] eqn:Eb.
    + assert (Hi : index (loaded_from w) = Some ix)
        by (unfold loaded_from; simpl; now rewrite Eb).
      rewrite (retrieve_docs_indexed C query k t (loaded_from w) ix Hi). simpl.
      exists [EvLoadFaq; EvSearch query k]. rewrite <- app_assoc.
      split; [reflexivity|]. split; [congruence|].
      intros p n [H | [H | []]]; discriminate.
    + simpl. exists [EvLoadFaq]. split; [reflexivity|]. split; [congruence|].
      intros p n [H | []]. discriminate.
Qed.

(** In a world that has an index the FAQ branch always searches. *)
Lemma faq_answer_searches (message : string) (w : World C) :
  index w <> None ->
  In (EvSearch message default_k) (calls (snd (faq_answer C message w))).
Proof.
  intros Hix.
  destruct (retrieve_docs_calls message default_k default_threshold w)
    as [l [Hc [Hin _]]]. specialize (Hin Hix).
  unfold faq_answer, bind.
  destruct (retrieve_docs C message default_k default_threshold w) as [[r|e] w'];
    simpl in Hc.
  - destruct r as [|x r]; simpl.
    + rewrite Hc. apply in_or_app. now right.
    + apply in_or_app. left. rewrite Hc. apply in_or_app. now right.
  - simpl. rewrite Hc. apply in_or_app. now right.
Qed.

Lemma reload_faq_eq (w : World C) :
  reload_faq C w =
    (match build_index C (faq_file w) with
     | Some _ => Return "FAQ reloaded successfully."
     | None => Raise IndexError
     end, loaded_from w).
Proof.
  unfold reload_faq, bind. rewrite load_faq_docs_eq.
  now destruct (build_index C (faq_file w)).
Qed.

(** ** Computations that only add lookups *)

Lemma adds_ret {A} P (a : A) : adds P (ret (C:=C) a).
Proof.
  intros w. exists []. rewrite app_nil_r. split; [now destruct w | constructor].
Qed.

Lemma adds_raise {A} P e : adds P (raise (C:=C) (A:=A) e).
Proof.
  intros w. exists []. rewrite app_nil_r. split; [now destruct w | constructor].
Qed.

Lemma adds_emit (P : Event -> Prop) e : P e -> adds P (emit (C:=C) e).
Proof.
  intros H w. exists [e]. split; [reflexivity | now repeat constructor].
Qed.

Lemma adds_bind {A B} P (m : M C A) (f : A -> M C B) :
  adds P m -> (forall a, adds P (f a)) -> adds P (bind m f).
Proof.
  intros Hm Hf w. unfold bind. destruct (Hm w) as [l [Hw Hl]].
  destruct (m w) as [[a|e] w1]; simpl in Hw.
  - destruct (Hf a w1) as [l' [Hw' Hl']]. exists (l ++ l').
    rewrite Hw', Hw. simpl. rewrite app_assoc. split; [reflexivity|].
    now apply Forall_app.
  - exists l. simpl. split; [assumption | assumption].
Qed.

Lemma adds_field P data key : adds P (field C data key).
Proof.
  unfold field. destruct (fields data !! key); [apply adds_ret | apply adds_raise].
Qed.

Lemma adds_item_lines P l : adds P (item_lines C l).
Proof.
  induction l as [|i l IH]; simpl; [apply adds_ret|].
  apply adds_bind.
  - unfold item_line.
    destruct (i !! "name"), (i !! "sku"), (i !! "qty");
      (apply adds_ret || apply adds_raise).
  - intros x. apply adds_bind; [exact IH|]. intros xs. apply adds_ret.
Qed.

Lemma adds_lookup collection order_id :
  adds is_lookup (lookup C mock_data collection order_id).
Proof.
  unfold lookup. apply adds_bind; [now apply adds_emit|]. intros _. apply adds_ret.
Qed.

Ltac adds_step :=
  first
    [ apply adds_ret | apply adds_raise | apply adds_field
    | apply adds_item_lines | apply adds_lookup
    | apply adds_bind; [|intros ?] ].

Lemma adds_structured_answer intent order_id :
  adds is_lookup (structured_answer C mock_data intent order_id).
Proof.
  unfold structured_answer. cbv zeta.
  repeat match goal with
         | |- adds _ (if ?b then _ else _) => destruct b
         | |- adds _ (match ?o with Some _ => _ | None => _ end) => destruct o
         | |- _ => adds_step
         end.
Qed.

(** ** The empty corpus

    With no entry to read, every hit that passes the threshold raises, so a
    retrieval returns nothing or raises, whatever the index reports. *)





End Chat.

End ChatFacts.

(** * Retrieval against the index contract *)

Module ContractFacts.
Import Aux RagFacts.

Lemma sublist_In {A} (l1 l2 : list A) :
  sublist l1 l2 -> forall x, In x l1 -> In x l2.
Proof.
  induction 1 as [|y l1 l2 _ IH|y l1 l2 _ IH]; intros x; simpl; [tauto| |].
  - intros [<- | H]; [now left | right; now apply IH].
  - intros H. right. now apply IH.
Qed.


Section Contract.
Variable C : Collaborators.
Hypothesis HC : IndexContract C.

(** Under the contract an index can be built from every corpus. *)
Lemma build_index_some (corpus : list string) :
  exists ix, build_index C corpus = Some ix.
Proof.
  unfold build_index. destruct (encode_shape C HC corpus) as [d ->].
  simpl. eauto.
Qed.

Lemma loaded_after_load (w : World C) : Spec.loaded (loaded_from w).
Proof.
  destruct (build_index_some (faq_file w)) as [ix E].
  now apply (loaded_from_loaded C w ix).
Qed.

(** With a corpus that is not empty every reported id can be read. *)
Lemma loaded_returns query k t (w : World C) :
  Spec.loaded w -> docs w <> [] ->
  exists l, fst (retrieve_docs C query k t w) = Return l.
Proof.
  intros [ix [Hi Hb]] Hd. rewrite (retrieve_docs_indexed C query k t w ix Hi). simpl.
  apply collect_returns. intros dist idx Hin _.
  destruct (search_ids C HC _ _ _ _ _ _ Hb Hin) as [Hpos | [-> _]].
  - now apply py_index_position.
  - now apply py_index_last.
Qed.

Lemma loaded_bounded query k t (w : World C) l :
  Spec.loaded w ->
  fst (retrieve_docs C query k t w) = Return l ->
  List.length l <= k /\ forall x, In x l -> In x (docs w).
Proof.
  intros [ix [Hi Hb]]. rewrite (retrieve_docs_indexed C query k t w ix Hi). simpl.
  intros H. apply collect_within in H as [s [-> [Hl Hin]]].
  rewrite (search_length C HC _ _ _ _ Hb) in Hl. simpl. split; assumption.
Qed.


(** ** Well-formed worlds

    The world at start-up is well formed, and against collaborators that
    keep their contract every operation leaves a well-formed world. *)

Lemma wellformed_boot (file : list string) :
  Spec.wellformed (mkWorld (C:=C) file [] None []).
Proof. now left. Qed.

Lemma wellformed_same (w w' : World C) :
  docs w' = docs w -> index w' = index w ->
  Spec.wellformed w -> Spec.wellformed w'.
Proof.
  intros Hd Hi [H | [ix [H1 H2]]]; [left; congruence|].
  right. exists ix. split; congruence.
Qed.

Lemma wellformed_reload (w : World C) : Spec.loaded (snd (reload_faq C w)).
Proof. rewrite ChatFacts.reload_faq_eq. simpl. apply loaded_after_load. Qed.

Lemma wellformed_retrieve query k t (w : World C) :
  Spec.wellformed w -> Spec.wellformed (snd (retrieve_docs C query k t w)).
Proof.
  intros Hw. destruct (index w) as [ix|] eqn:E.
  - rewrite (retrieve_docs_indexed C query k t w ix E). simpl.
    now apply (wellformed_same w).
  - rewrite (retrieve_docs_unindexed C query k t w E).
    pose proof (loaded_after_load w) as Hl.
    destruct (build_index_some (faq_file w)) as [ix Eb]. rewrite Eb.
    destruct (Hl) as [ix' [Hi _]].
    rewrite (retrieve_docs_indexed C query k t (loaded_from w) ix' Hi). simpl.
    apply (wellformed_same (loaded_from w)); [reflexivity | reflexivity | now right].
Qed.

Lemma wellformed_chat mock_data (message : string) (w : World C) :
  Spec.wellformed w -> Spec.wellformed (snd (chat C mock_data message w)).
Proof.
  intros Hw. unfold chat. cbv zeta.
  destruct (_ && _); [exact Hw|].
  destruct (_ || _ || _).
  - pose proof (wellformed_retrieve message default_k default_threshold w Hw) as H1.
    unfold faq_answer, bind.
    destruct (retrieve_docs C message default_k default_threshold w) as [[r|e] w1];
      simpl in H1; [|exact H1].
    destruct r as [|x r]; [exact H1|].
    simpl. now apply (wellformed_same w1).
  - destruct (ChatFacts.adds_structured_answer C mock_data
                (intent (classify_intent message)) (extract_order_id message) w)
      as [l [Hs _]].
    rewrite Hs. now apply (wellformed_same w).
Qed.

End Contract.

End ContractFacts.

(** C3. Raising the distance threshold never shrinks the result of
    retrieve_docs: for thresholds t1 <= t2, whenever the call with t2 returns,
    the call with t1 returns a sublist of it, so every entry of the one is an
    entry of the other; on a loaded, non-empty corpus both calls return.  The
    threshold is a hard cutoff: a retrieval over a non-empty corpus can
    return the empty sequence. *)
Theorem retrieval_monotone :
  (forall (C : Collaborators) query k t1 t2 (w : World C) l2,
     Float.le t1 t2 = true ->
     fst (retrieve_docs C query k t2 w) = Return l2 ->
     exists l1, fst (retrieve_docs C query k t1 w) = Return l1
                /\ sublist l1 l2 /\ forall x, In x l1 -> In x l2)
  /\ (forall (C : Collaborators) query k t1 t2 (w : World C),
        IndexContract C -> Spec.loaded w -> docs w <> [] ->
        Float.le t1 t2 = true ->
        exists l1 l2, fst (retrieve_docs C query k t1 w) = Return l1
                      /\ fst (retrieve_docs C query k t2 w) = Return l2
                      /\ forall x, In x l1 -> In x l2)
  /\ (exists (C : Collaborators) (w : World C) query,
        IndexContract C /\ Spec.loaded w /\ docs w <> []
        /\ fst (retrieve_docs C query default_k default_threshold w) = Return []).
Proof.
  assert (Hmono : forall (C : Collaborators) query k t1 t2 (w : World C) l2,
     Float.le t1 t2 = true ->
     fst (retrieve_docs C query k t2 w) = Return l2 ->
     exists l1, fst (retrieve_docs C query k t1 w) = Return l1
                /\ sublist l1 l2 /\ forall x, In x l1 -> In x l2).
  { intros C query k t1 t2 w l2 Ht.
    assert (Hix : forall (w : World C) ix, index w = Some ix ->
      fst (retrieve_docs C query k t2 w) = Return l2 ->
      exists l1, fst (retrieve_docs C query k t1 w) = Return l1
                 /\ sublist l1 l2 /\ forall x, In x l1 -> In x l2).
    { intros w0 ix E. rewrite !(RagFacts.retrieve_docs_indexed C _ _ _ w0 ix E). simpl.
      intros H.
      destruct (RagFacts.collect_monotone (docs w0) t1 t2 _ Ht [] [] l2 H)
        as [s1 [s2 [H1 [-> Hs]]]].
      exists s1. simpl in *. split; [assumption|]. split; [assumption|].
      now apply ContractFacts.sublist_In. }
    destruct (index w) as [ix|] eqn:E; [now apply (Hix w ix)|].
    rewrite !(RagFacts.retrieve_docs_unindexed C _ _ _ w E).
    destruct (build_index C (faq_file w)) as [ix|] eqn:Eb; [|discriminate].
    apply (Hix (Aux.loaded_from w) ix).
    unfold Aux.loaded_from. simpl. now rewrite Eb. }
  split; [exact Hmono|]. split.
  - intros C query k t1 t2 w HC Hw Hd Ht.
    destruct (ContractFacts.loaded_returns C HC query k t2 w Hw Hd) as [l2 H2].
    destruct (Hmono C query k t1 t2 w l2 Ht H2) as [l1 [H1 [_ Hin]]].
    now exists l1, l2.
  - exists Sample.collab, (Sample.started Sample.corpus), "refund status".
    split; [exact SampleFacts.contract|]. split; [now eexists|].
    split; [discriminate | reflexivity].
Qed.

Lemma retrieval_monotone_witness :
  let w := Sample.started Sample.corpus in
  let q := "How many days do I have to return an item?" in
  Float.le default_threshold (Float.Fin 40) = true
  /\ fst (retrieve_docs Sample.collab q 4 default_threshold w)
     = Return ["Refunds are processed in 5-7 business days."]
  /\ fst (retrieve_docs Sample.collab q 4 (Float.Fin 40) w)
     = Return ["Refunds are processed in 5-7 business days.";
               "Returns are accepted within 30 days of delivery."]
  /\ exists l1, fst (retrieve_docs Sample.collab q 4 default_threshold w) = Return l1
       /\ sublist l1 ["Refunds are processed in 5-7 business days.";
                      "Returns are accepted within 30 days of delivery."].
Proof.
  cbv zeta. split; [reflexivity|]. split; [reflexivity|]. split; [reflexivity|].
  destruct retrieval_monotone as [H _].
  destruct (H Sample.collab "How many days do I have to return an item?" 4
              default_threshold (Float.Fin 40) (Sample.started Sample.corpus)
              ["Refunds are processed in 5-7 business days.";
               "Returns are accepted within 30 days of delivery."]
              eq_refl eq_refl) as [l1 [H1 [H2 _]]].
  now exists l1.
Defined.

(** C10. Against an index that keeps its contract, in a world that is not
    loaded yet or loaded, a sequence returned by retrieve_docs has at most k
    entries and each of them is an entry of the corpus then loaded; this
    includes the corpus with fewer than k entries, where the index reports the
    placeholder id -1, which Python reads as the last entry.  The call does
    return whenever the corpus in use is not empty. *)
Theorem retrieval_within_corpus (C : Collaborators) query k t (w : World C) :
  IndexContract C ->
  Spec.wellformed w ->
  (forall l w', retrieve_docs C query k t w = (Return l, w') ->
     List.length l <= k /\ (forall x, In x l -> In x (docs w')) /\ Spec.loaded w')
  /\ (Spec.corpus_in_use w <> [] ->
      exists l w', retrieve_docs C query k t w = (Return l, w')).
Proof.
  intros HC Hw.
  assert (Hloaded : forall w0 : World C, Spec.loaded w0 ->
    (forall l w', retrieve_docs C query k t w0 = (Return l, w') ->
       List.length l <= k /\ (forall x, In x l -> In x (docs w')) /\ Spec.loaded w')
    /\ (docs w0 <> [] -> exists l w', retrieve_docs C query k t w0 = (Return l, w'))).
  { intros w0 H0. split.
    - intros l w' H.
      destruct (ContractFacts.loaded_bounded C HC query k t w0 l H0) as [Hl Hin];
        [now rewrite H|].
      destruct H0 as [ix [Hi Hb]].
      rewrite (RagFacts.retrieve_docs_indexed C query k t w0 ix Hi) in H.
      injection H as _ <-. simpl. split; [assumption|]. split; [assumption|].
      now exists ix.
    - intros Hd. destruct (ContractFacts.loaded_returns C HC query k t w0 H0 Hd) as [l Hl].
      destruct (retrieve_docs C query k t w0) as [r w'] eqn:E. simpl in Hl. subst r.
      now exists l, w'. }
  destruct Hw as [Hnone | Hw].
  - unfold Spec.corpus_in_use. rewrite Hnone.
    rewrite (RagFacts.retrieve_docs_unindexed C query k t w Hnone).
    pose proof (ContractFacts.loaded_after_load C HC w) as Hl.
    destruct (ContractFacts.build_index_some C HC (faq_file w)) as [ix ->].
    apply (Hloaded (Aux.loaded_from w) Hl).
  - destruct (Hw) as [ix [Hi _]].
    unfold Spec.corpus_in_use. rewrite Hi. now apply Hloaded.
Qed.

Lemma retrieval_within_corpus_witness :
  let w := Sample.boot Sample.corpus in
  Spec.wellformed w
  /\ exists l w', retrieve_docs Sample.collab "any" 4 Float.PosInf w = (Return l, w')
       /\ List.length l <= 4 /\ (forall x, In x l -> In x (docs w')).
Proof.
  cbv zeta. split; [now left|].
  destruct (retrieval_within_corpus Sample.collab "any" 4 Float.PosInf
              (Sample.boot Sample.corpus) SampleFacts.contract (or_introl eq_refl))
    as [Hb Hr].
  destruct Hr as [l [w' H]]; [discriminate|].
  exists l, w'. split; [exact H|]. destruct (Hb l w' H) as [? [? _]]. now split.
Defined.



(** C9 (as amended). A request flagged by the policy-query detector that
    gets past the guard (its classification needs no identifier, or an
    identifier was extracted) is answered by the FAQ branch, whatever label
    the cascade gave it: in a world that has an index, chat searches it for
    the message. *)
Theorem policy_query_takes_faq_branch
    (C : Collaborators) (mock_data : gmap string (list JRecord))
    (message : string) (w : World C) :
  is_policy_query message = true ->
  Spec.passes_guard message ->
  index w <> None ->
  chat C mock_data message w = faq_answer C message w
  /\ In (EvSearch message default_k) (calls (snd (chat C mock_data message w))).
Proof.
  intros Hp Hg Hix.
  assert (H : chat C mock_data message w = faq_answer C message w).
  { apply ChatFacts.chat_faq_route. split; [assumption | tauto]. }
  split; [exact H|]. rewrite H. now apply ChatFacts.faq_answer_searches.
Qed.

Lemma policy_query_takes_faq_branch_witness :
  let m := "Track the return policy for order 12345" in
  let w := Sample.started Sample.corpus in
  classify_intent m = mkClassification "return_request" true
  /\ is_policy_query m = true
  /\ Spec.passes_guard m
  /\ chat Sample.collab ∅ m w = faq_answer Sample.collab m w
  /\ In (EvSearch m default_k) (calls (snd (chat Sample.collab ∅ m w))).
Proof.
  cbv zeta. split; [reflexivity|]. split; [reflexivity|].
  assert (Hg : Spec.passes_guard "Track the return policy for order 12345")
    by (right; discriminate).
  split; [exact Hg|].
  apply (policy_query_takes_faq_branch Sample.collab ∅
           "Track the return policy for order 12345" (Sample.started Sample.corpus)
           eq_refl Hg); discriminate.
Defined.

(** C9 as stated fails: this message is flagged by the policy-query
    detector, the cascade labels it escalation, which needs an identifier,
    none is present, and the guard answers before any routing: no search is
    made. *)
Lemma policy_query_stopped_by_guard :
  let m := "I have a complaint about your return policy" in
  let w := Sample.started Sample.corpus in
  is_policy_query m = true
  /\ classify_intent m = mkClassification "escalation" true
  /\ chat Sample.collab ∅ m w = (Return MSG_NEED_ORDER_ID, w)
  /\ chat Sample.collab ∅ m w <> faq_answer Sample.collab m w
  /\ ~ In (EvSearch m default_k) (calls (snd (chat Sample.collab ∅ m w))).
Proof.
  cbv zeta. split; [reflexivity|]. split; [reflexivity|]. split; [reflexivity|].
  split; [discriminate|]. intros [H | []]. discriminate.
Qed.

(** C4 (as amended). From "refund status" no identifier is extracted; the
    cascade labels it faq, which needs no identifier, so the guard does not
    fire: chat answers through the FAQ branch and, in a world that has an
    index, searches it. *)
Theorem refund_status_takes_faq_branch
    (C : Collaborators) (mock_data : gmap string (list JRecord)) (w : World C) :
  extract_order_id "refund status" = None
  /\ classify_intent "refund status" = mkClassification "faq" false
  /\ chat C mock_data "refund status" w = faq_answer C "refund status" w
  /\ (index w <> None ->
      In (EvSearch "refund status" default_k)
         (calls (snd (chat C mock_data "refund status" w)))).
Proof.
  split; [reflexivity|]. split; [reflexivity|].
  assert (H : chat C mock_data "refund status" w = faq_answer C "refund status" w)
    by reflexivity.
  split; [exact H|]. rewrite H. apply ChatFacts.faq_answer_searches.
Qed.

Lemma refund_status_takes_faq_branch_witness :
  In (EvSearch "refund status" default_k)
     (calls (snd (chat Sample.collab ∅ "refund status" (Sample.started Sample.corpus)))).
Proof.
  destruct (refund_status_takes_faq_branch Sample.collab ∅ (Sample.started Sample.corpus))
    as [_ [_ [_ H]]].
  apply H. discriminate.
Defined.

(** C4 as stated fails: for "refund status" the reply is not the
    clarification text of the guard; here it is the insufficient-information
    text, given after a search. *)
Lemma refund_status_guard_silent :
  let w := Sample.started Sample.corpus in
  extract_order_id "refund status" = None
  /\ fst (chat Sample.collab ∅ "refund status" w) = Return MSG_NOT_ENOUGH_INFO
  /\ fst (chat Sample.collab ∅ "refund status" w) <> Return MSG_NEED_ORDER_ID
  /\ calls (snd (chat Sample.collab ∅ "refund status" w))
     = calls w ++ [EvSearch "refund status" 4].
Proof.
  cbv zeta. split; [reflexivity|]. split; [reflexivity|].
  split; [discriminate | reflexivity].
Qed.

(** * The examples of the specification *)

(** Example 1: the message is classified order_status and the identifier
    123456 is extracted. *)
Example example_where_is_my_order :
  classify_intent "Where is my order 123456" = mkClassification "order_status" true
  /\ extract_order_id "Where is my order 123456" = Some "123456".
Proof. split; reflexivity. Qed.

(** Example 2: the message is classified faq and needs no identifier; with
    no entry within the threshold the reply is the insufficient-information
    text. *)
Example example_return_policy :
  classify_intent "What is your return policy" = mkClassification "faq" false
  /\ fst (chat Sample.collab ∅ "What is your return policy" (Sample.started Sample.corpus))
     = Return MSG_NOT_ENOUGH_INFO.
Proof. split; reflexivity. Qed.

(** Only the first whole word of digits is used; a run glued to letters or
    to an underscore is no word. *)
Example example_extract_first :
  extract_order_id "ab1234 x 55555 777777" = Some "55555"
  /\ extract_order_id "123 1234567_ 12345." = Some "12345".
Proof. split; reflexivity. Qed.

(** With entries within the threshold the generator is called on the prompt
    and its text, stripped, is the reply. *)
Example example_generated_answer :
  let q := "How many days do I have to return an item?" in
  chat Sample.collab ∅ q (Sample.started Sample.corpus)
  = (Return "Returns are accepted within 30 days.",
     mkWorld Sample.corpus Sample.corpus (build_index Sample.collab Sample.corpus)
       [EvLoadFaq; EvSearch q 4;
        EvGenerate
          (prompt_of "Refunds are processed in 5-7 business days." q) 1000]).
Proof. reflexivity. Qed.


(** * Further properties *)

(** ** The identifier and letter case *)

Module CaseSearchFacts.
Import StrFacts CaseFacts Aux.










Lemma search_digits (s m : string) : Re.search s = Some m -> Spec.digits m.
Proof.
  intros H. pose proof (ReFacts.search_spec s) as Hs. rewrite H in Hs.
  destruct Hs as [a [b [[_ [Hd _]] _]]]. exact Hd.
Qed.


End CaseSearchFacts.


(** ** The cascade and the guard *)

Module CascadeFacts.
Import StrFacts CaseFacts.

Lemma contains_app (p s a b : string) :
  Str.contains p s = true -> Str.contains p (a +:+ s +:+ b) = true.
Proof.
  rewrite !contains_iff. intros [x [y ->]].
  exists (a +:+ x), (y +:+ b). now rewrite !app_assoc.
Qed.

Lemma contains_trans (p s t : string) :
  Str.contains p s = true -> Str.contains s t = true -> Str.contains p t = true.
Proof.
  intros Hp Hs. apply contains_iff in Hs as [a [b ->]]. now apply contains_app.
Qed.

Lemma lower_app3 (a q b : string) :
  Str.lower (a +:+ q +:+ b) = Str.lower a +:+ Str.lower q +:+ Str.lower b.
Proof. unfold Str.lower. now rewrite !map_app. Qed.

Lemma existsb_impl {A} (f g : A -> bool) (l : list A) :
  (forall x, f x = true -> g x = true) ->
  existsb f l = true -> existsb g l = true.
Proof.
  intros H Hf. apply List.existsb_exists in Hf as [x [Hin Hx]].
  apply List.existsb_exists. exists x. split; [assumption | now apply H].
Qed.

Lemma has_order_action_orb (q : string) :
  has_order_action q =
    existsb (fun phrase => Str.contains phrase (Str.lower q)) STRONG_ORDER_ACTIONS
    || existsb (fun phrase => Str.contains phrase (Str.lower q)
                              && Str.contains "my" (Str.lower q)) WEAK_ORDER_ACTIONS.
Proof.
  unfold has_order_action.
  destruct (existsb _ STRONG_ORDER_ACTIONS); [reflexivity|].
  now destruct (existsb _ WEAK_ORDER_ACTIONS).
Qed.

(** The seven results of the cascade. *)
Lemma classify_cases (q : string) :
  In (classify_intent q)
    [ mkClassification "refund_status" true; mkClassification "return_request" true;
      mkClassification "order_status" true; mkClassification "escalation" true;
      mkClassification "shipping" false; mkClassification "faq" false;
      mkClassification "general" false ].
Proof.
  destruct (has_order_id (Str.lower q) && has_order_action (Str.lower q)) eqn:E.
  - apply IntentFacts.classify_order in E. simpl in E |- *. tauto.
  - apply IntentFacts.classify_not_order in E. simpl in E |- *. tauto.
Qed.


Lemma is_faq_intent_lower (q : string) : is_faq_intent (Str.lower q) = is_faq_intent q.
Proof. unfold is_faq_intent. now rewrite lower_lower. Qed.

Lemma policy_phrase_has_policy (p : string) :
  In p policy_phrases -> Str.contains "policy" p = true.
Proof.
  simpl. intros H. repeat (destruct H as [<- | H]; [reflexivity|]). contradiction.
Qed.

Lemma policy_is_faq (q : string) : is_policy_query q = true -> is_faq_intent q = true.
Proof.
  unfold is_policy_query, is_faq_intent. intros H.
  apply List.existsb_exists in H as [p [Hin Hp]].
  pose proof (contains_trans _ _ _ (policy_phrase_has_policy p Hin) Hp) as Hk.
  apply List.existsb_exists.
  exists ("policy", ["policy"; "terms"; "conditions"; "rules"; "guidelines"]).
  split; [simpl; tauto|]. simpl. now rewrite Hk.
Qed.

End CascadeFacts.

(** X2. The cascade answers with one of seven results: the three order
    kinds and escalation need an identifier, shipping, faq and general do
    not.  The label "unknown", which chat also sends to the FAQ branch, is
    never produced. *)
Theorem classification_results (query : string) :
  In (classify_intent query)
    [ mkClassification "refund_status" true; mkClassification "return_request" true;
      mkClassification "order_status" true; mkClassification "escalation" true;
      mkClassification "shipping" false; mkClassification "faq" false;
      mkClassification "general" false ]
  /\ intent (classify_intent query) <> "unknown".
Proof.
  pose proof (CascadeFacts.classify_cases query) as H. split; [exact H|].
  simpl in H. repeat (destruct H as [<- | H]; [discriminate|]). contradiction.
Qed.



(** X4. Every phrase of the policy-query detector contains the FAQ keyword
    "policy": a query that the detector flags is a FAQ query for
    is_faq_intent too, and the cascade never labels it general. *)
Theorem policy_query_is_faq_query (query : string) :
  is_policy_query query = true ->
  is_faq_intent query = true
  /\ intent (classify_intent query) <> "general".
Proof.
  intros Hp. pose proof (CascadeFacts.policy_is_faq query Hp) as Hf.
  split; [exact Hf|].
  unfold classify_intent. cbv zeta.
  rewrite (CascadeFacts.is_faq_intent_lower query), Hf.
  destruct (_ && _).
  - destruct (_ || _ || _); [discriminate|].
    destruct (_ || _ || _ || _); [discriminate|].
    destruct (_ || _ || _); discriminate.
  - destruct (is_escalation_intent _); [discriminate|].
    destruct (existsb _ _); discriminate.
Qed.

Lemma policy_query_is_faq_query_witness :
  is_policy_query "Tell me about the EXCHANGE POLICY" = true
  /\ is_faq_intent "Tell me about the EXCHANGE POLICY" = true
  /\ intent (classify_intent "Tell me about the EXCHANGE POLICY") <> "general".
Proof.
  split; [reflexivity|].
  apply (policy_query_is_faq_query "Tell me about the EXCHANGE POLICY"). reflexivity.
Defined.

(** X5. A message labelled shipping or general that the policy-query
    detector does not flag gets the fixed text that lists what the assistant
    supports: chat sends only faq and unknown to the FAQ branch, and no
    structured tool bears these labels.  Nothing is searched, looked up or
    generated. *)
Theorem shipping_and_general_unsupported
    (C : Collaborators) (mock_data : gmap string (list JRecord))
    (message : string) (w : World C) :
  intent (classify_intent message) = "shipping"
  \/ intent (classify_intent message) = "general" ->
  is_policy_query message = false ->
  chat C mock_data message w = (Return MSG_UNSUPPORTED, w).
Proof.
  intros Hi Hp. unfold chat. cbv zeta. rewrite Hp.
  pose proof (CascadeFacts.classify_cases message) as H. simpl in H.
  repeat (destruct H as [H | H];
          [ rewrite <- H in Hi |- *; simpl in Hi;
            first [ now destruct Hi as [Hi | Hi]; discriminate Hi | reflexivity ] |]).
  contradiction.
Qed.

Lemma shipping_and_general_unsupported_witness :
  classify_intent "How long does shipping take?" = mkClassification "shipping" false
  /\ chat Sample.collab ∅ "How long does shipping take?" (Sample.started Sample.corpus)
     = (Return MSG_UNSUPPORTED, Sample.started Sample.corpus).
Proof.
  split; [reflexivity|].
  apply (shipping_and_general_unsupported Sample.collab ∅ "How long does shipping take?");
    [now left | reflexivity].
Defined.

(** X6. The keyword detectors only look for phrases inside the lower-cased
    query, so text added before or after a query never turns a detection
    off: this holds for has_order_action, is_faq_intent, is_escalation_intent
    and is_policy_query. *)
Theorem detectors_monotone (before query after : string) :
  (has_order_action query = true ->
   has_order_action (before +:+ query +:+ after) = true)
  /\ (is_faq_intent query = true ->
      is_faq_intent (before +:+ query +:+ after) = true)
  /\ (is_escalation_intent query = true ->
      is_escalation_intent (before +:+ query +:+ after) = true)
  /\ (is_policy_query query = true ->
      is_policy_query (before +:+ query +:+ after) = true).
Proof.
  assert (Hc : forall p, Str.contains p (Str.lower query) = true ->
                 Str.contains p (Str.lower (before +:+ query +:+ after)) = true).
  { intros p H. rewrite CascadeFacts.lower_app3. now apply CascadeFacts.contains_app. }
  split; [|split; [|split]].
  - rewrite !CascadeFacts.has_order_action_orb, !orb_true_iff.
    intros [H | H]; [left | right]; revert H; apply CascadeFacts.existsb_impl.
    + exact Hc.
    + intros p Hp. apply andb_true_iff in Hp as [H1 H2].
      now rewrite (Hc _ H1), (Hc _ H2).
  - unfold is_faq_intent. apply CascadeFacts.existsb_impl.
    intros kws. apply CascadeFacts.existsb_impl. exact Hc.
  - unfold is_escalation_intent. apply CascadeFacts.existsb_impl. exact Hc.
  - unfold is_policy_query. apply CascadeFacts.existsb_impl. exact Hc.
Qed.

Lemma detectors_monotone_witness :
  has_order_action "track" = true
  /\ has_order_action ("Can you " +:+ "track" +:+ " order 5555?") = true.
Proof.
  split; [reflexivity|].
  destruct (detectors_monotone "Can you " "track" " order 5555?") as [H _].
  apply H. reflexivity.
Defined.

(** ** What chat calls *)

Module EffectFacts.
Import Aux RagFacts Spec2.

Section Effects.
Variable C : Collaborators.
Variable mock_data : gmap string (list JRecord).

Lemma quiet_ret {A} (a : A) : quiet (ret (C:=C) a).
Proof. now intros w. Qed.

Lemma quiet_raise {A} e : quiet (raise (C:=C) (A:=A) e).
Proof. now intros w. Qed.

Lemma quiet_bind {A B} (m : M C A) (f : A -> M C B) :
  quiet m -> (forall a, quiet (f a)) -> quiet (bind m f).
Proof.
  intros Hm Hf w. unfold bind. specialize (Hm w).
  destruct (m w) as [[a|e] w1]; simpl in Hm; subst w1; [apply Hf | reflexivity].
Qed.

Lemma quiet_field data key : quiet (field C data key).
Proof.
  unfold field. destruct (fields data !! key); [apply quiet_ret | apply quiet_raise].
Qed.

Lemma quiet_item_lines l : quiet (item_lines C l).
Proof.
  induction l as [|i l IH]; simpl; [apply quiet_ret|].
  apply quiet_bind.
  - unfold item_line.
    destruct (i !! "name"), (i !! "sku"), (i !! "qty");
      (apply quiet_ret || apply quiet_raise).
  - intros x. apply quiet_bind; [exact IH|]. intros xs. apply quiet_ret.
Qed.

(** After the lookup nothing else touches the world. *)
Lemma lookup_then_quiet {B} collection order_id (k : option JRecord -> M C B)
    (w : World C) :
  (forall data, quiet (k data)) ->
  snd (bind (lookup C mock_data collection order_id) k w)
  = mkWorld (faq_file w) (docs w) (index w)
      (calls w ++ [EvLookup collection (str_order_id order_id)]).
Proof.
  intros Hk. unfold bind, lookup, emit, ret. cbn. apply Hk.
Qed.

Ltac quiet_step :=
  first
    [ apply quiet_ret | apply quiet_raise | apply quiet_field
    | apply quiet_item_lines | apply quiet_bind; [|intros ?] ].

Ltac quiet_all :=
  repeat match goal with
         | |- quiet (if ?b then _ else _) => destruct b
         | |- quiet (match ?o with Some _ => _ | None => _ end) => destruct o
         | |- _ => quiet_step
         end.

(** The structured tools look up once, in the collection that the intent
    names, and not at all for another intent. *)
Lemma structured_answer_calls intent order_id (w : World C) :
  snd (structured_answer C mock_data intent order_id w)
  = mkWorld (faq_file w) (docs w) (index w)
      (calls w ++
       if bool_decide (In intent collections)
       then [EvLookup intent (str_order_id order_id)] else []).
Proof.
  unfold structured_answer. cbv zeta.
  destruct (String.eqb intent "order_status") eqn:E1.
  { apply String.eqb_eq in E1. subst intent.
    rewrite lookup_then_quiet; [reflexivity | intros data; quiet_all]. }
  destruct (String.eqb intent "refund_status") eqn:E2.
  { apply String.eqb_eq in E2. subst intent.
    rewrite lookup_then_quiet; [reflexivity | intros data; quiet_all]. }
  destruct (String.eqb intent "return_request") eqn:E3.
  { apply String.eqb_eq in E3. subst intent.
    rewrite lookup_then_quiet; [reflexivity | intros data; quiet_all]. }
  destruct (String.eqb intent "escalation") eqn:E4.
  { apply String.eqb_eq in E4. subst intent.
    rewrite lookup_then_quiet; [reflexivity | intros data; quiet_all]. }
  apply String.eqb_neq in E1, E2, E3, E4.
  rewrite bool_decide_eq_false_2.
  - simpl. rewrite app_nil_r. now destruct w.
  - simpl. intros [H | [H | [H | [H | []]]]]; congruence.
Qed.

(** The FAQ branch makes no record lookup. *)
Lemma faq_answer_calls (message : string) (w : World C) :
  exists l, calls (snd (faq_answer C message w)) = calls w ++ l
            /\ Forall no_lookup l.
Proof.
  assert (Hr : exists l, calls (snd (retrieve_docs C message default_k default_threshold w))
                         = calls w ++ l /\ Forall no_lookup l).
  { destruct (index w) as [ix|] eqn:E.
    - rewrite (retrieve_docs_indexed C _ _ _ w ix E). simpl.
      exists [EvSearch message default_k]. split; [reflexivity|]. now repeat constructor.
    - rewrite (retrieve_docs_unindexed C _ _ _ w E).
      destruct (build_index C (faq_file w)) as [ix|] eqn:Eb.
      + assert (Hi : index (loaded_from w) = Some ix)
          by (unfold loaded_from; simpl; now rewrite Eb).
        rewrite (retrieve_docs_indexed C _ _ _ (loaded_from w) ix Hi). simpl.
        exists [EvLoadFaq; EvSearch message default_k]. rewrite <- app_assoc.
        split; [reflexivity|]. now repeat constructor.
      + simpl. exists [EvLoadFaq]. split; [reflexivity|]. now repeat constructor. }
  destruct Hr as [l [Hc Hl]]. unfold faq_answer, bind.
  destruct (retrieve_docs C message default_k default_threshold w) as [[r|e] w1];
    simpl in Hc; [|now exists l].
  destruct r as [|x r]; [now exists l|]. simpl.
  exists (l ++ [EvGenerate (prompt_of (Str.join nl (x :: r)) message) 1000]).
  rewrite Hc, <- app_assoc. split; [reflexivity|].
  apply Forall_app. split; [assumption | now repeat constructor].
Qed.

(** In a world that has an index the FAQ branch leaves the corpus alone. *)
Lemma faq_answer_keeps (message : string) (w : World C) :
  index w <> None ->
  let w' := snd (faq_answer C message w) in
  faq_file w' = faq_file w /\ docs w' = docs w /\ index w' = index w.
Proof.
  intros Hi. destruct (index w) as [ix|] eqn:E; [|congruence].
  cbv zeta. unfold faq_answer, bind.
  rewrite (retrieve_docs_indexed C _ _ _ w ix E).
  destruct (collect _ _ _ _) as [[|x r]|e]; simpl; now rewrite ?E.
Qed.

End Effects.

End EffectFacts.

(** X7. Whatever the message, chat makes one record lookup at most, and none
    together with a search or a generation; the lookup is made in the
    collection that bears the label of the cascade, one of the four
    structured tools, and for the identifier extracted from the message,
    which is a run of four or more digits. *)
Theorem chat_looks_up_extracted_id
    (C : Collaborators) (mock_data : gmap string (list JRecord))
    (message : string) (w : World C) :
  exists l,
    calls (snd (chat C mock_data message w)) = calls w ++ l
    /\ forall collection id, In (EvLookup collection id) l ->
         l = [EvLookup collection id]
         /\ collection = intent (classify_intent message)
         /\ In collection Spec2.collections
         /\ extract_order_id message = Some id
         /\ Spec.digits id /\ 4 <= String.length id.
Proof.
  unfold chat. cbv zeta.
  destruct (needs_order_id (classify_intent message)
            && negb (order_id_truthy (extract_order_id message))) eqn:Eg.
  { exists []. rewrite app_nil_r. split; [reflexivity | intros c id []]. }
  destruct (String.eqb (intent (classify_intent message)) "faq"
            || String.eqb (intent (classify_intent message)) "unknown"
            || is_policy_query message).
  { destruct (EffectFacts.faq_answer_calls C message w) as [l [Hc Hl]].
    exists l. split; [exact Hc|]. intros c id Hin.
    rewrite List.Forall_forall in Hl. destruct (Hl _ Hin). }
  rewrite EffectFacts.structured_answer_calls. cbn [calls snd].
  destruct (bool_decide (In (intent (classify_intent message)) Spec2.collections))
    eqn:Ec.
  2:{ exists []. split; [reflexivity | intros c id []]. }
  apply bool_decide_eq_true_1 in Ec.
  eexists. split; [reflexivity|].
  intros c id [[= <- <-] | []].
  assert (Hn : needs_order_id (classify_intent message) = true).
  { pose proof (CascadeFacts.classify_cases message) as H. simpl in H, Ec.
    repeat (destruct H as [H | H];
            [rewrite <- H in Ec |- *; simpl in Ec |- *;
             first [reflexivity | exfalso; intuition discriminate] |]).
    contradiction. }
  rewrite Hn in Eg. simpl in Eg. apply negb_false_iff in Eg.
  unfold extract_order_id in *.
  destruct (Re.search message) as [m|] eqn:Em; [|discriminate].
  simpl. split; [reflexivity|]. split; [reflexivity|]. split; [exact Ec|].
  split; [reflexivity|].
  split; [now apply (CaseSearchFacts.search_digits message)
         | now apply (ReFacts.search_length message)].
Qed.

(** X8. In a world that has an index, chat leaves the FAQ file, the corpus
    and the index as they are, whatever the message: only a reload replaces
    them. *)
Theorem chat_keeps_corpus
    (C : Collaborators) (mock_data : gmap string (list JRecord))
    (message : string) (w : World C) :
  index w <> None ->
  faq_file (snd (chat C mock_data message w)) = faq_file w
  /\ docs (snd (chat C mock_data message w)) = docs w
  /\ index (snd (chat C mock_data message w)) = index w.
Proof.
  intros Hi. unfold chat. cbv zeta.
  destruct (_ && _); [now repeat split|].
  destruct (_ || _ || _); [now apply EffectFacts.faq_answer_keeps|].
  rewrite EffectFacts.structured_answer_calls. now repeat split.
Qed.

Lemma chat_keeps_corpus_witness :
  let w := Sample.started Sample.corpus in
  let w' := snd (chat Sample.collab ∅ "How many days do I have to return an item?" w) in
  calls w' <> calls w /\ faq_file w' = faq_file w /\ docs w' = docs w /\ index w' = index w.
Proof.
  cbv zeta. split; [discriminate|].
  apply (chat_keeps_corpus Sample.collab ∅). discriminate.
Defined.

(** ** The structured tools *)

Module ToolFacts.
Import Aux Spec2 StrFacts.

Lemma find_record_some records order_id rec :
  find_record records order_id = Some rec ->
  In rec records /\ record_matches order_id rec.
Proof.
  unfold find_record. intros H. apply List.find_some in H as [Hin Hm].
  split; [exact Hin|]. unfold record_matches.
  apply orb_true_iff in Hm as [Hm | Hm]; apply String.eqb_eq in Hm; tauto.
Qed.

(** A record found for an identifier other than the text None has a field,
    so it counts as true. *)
Lemma found_truthy records id rec :
  id <> "None" ->
  find_record records (Some id) = Some rec -> record_truthy rec = true.
Proof.
  intros Hid H. apply find_record_some in H as [_ Hm].
  unfold record_truthy. rewrite bool_decide_eq_false_2; [reflexivity|].
  intros He. unfold record_matches, str_get in Hm. rewrite He in Hm.
  rewrite !lookup_empty in Hm. simpl in Hm.
  destruct Hm as [Hm | Hm]; [congruence|].
  rewrite app_cons in Hm. discriminate.
Qed.

Lemma digits_not_None (id : string) : Spec.digits id -> id <> "None".
Proof. intros H ->. discriminate. Qed.

Lemma encode_digit c : Char.is_digit c = true -> Utf8.encode_char c = String c "".
Proof. destruct c as [[] [] [] [] [] [] [] []]; vm_compute; (reflexivity || discriminate). Qed.

(** Digits are their own UTF-8 encoding. *)
Lemma encode_digits (d : string) : Spec.digits d -> Utf8.encode d = d.
Proof.
  unfold Spec.digits. induction d as [|c d IH]; [reflexivity|].
  simpl. intros H. apply andb_true_iff in H as [Hc Hd].
  now rewrite (encode_digit c Hc), (IH Hd).
Qed.

Lemma encode_extracted (message id : string) :
  extract_order_id message = Some id -> Utf8.encode id = id.
Proof.
  unfold extract_order_id. destruct (Re.search message) as [m|] eqn:E; [|discriminate].
  intros [= <-]. apply encode_digits. now apply (CaseSearchFacts.search_digits message).
Qed.

Section Tools.
Variable C : Collaborators.
Variable mock_data : gmap string (list JRecord).

(** The requests that reach the structured tools. *)
Lemma chat_structured (message : string) (w : World C) id :
  In (intent (classify_intent message)) collections ->
  is_policy_query message = false ->
  extract_order_id message = Some id ->
  chat C mock_data message w
  = structured_answer C mock_data (intent (classify_intent message)) (Some id) w.
Proof.
  intros Hc Hp He. unfold chat. cbv zeta. rewrite He, Hp.
  assert (Ht : order_id_truthy (Some id) = true).
  { unfold extract_order_id in He.
    destruct (Re.search message) as [m|] eqn:E; [|discriminate].
    injection He as ->. apply ReFacts.search_length in E.
    destruct id; [simpl in E; lia | reflexivity]. }
  rewrite Ht, andb_false_r.
  simpl in Hc.
  destruct Hc as [H | [H | [H | [H | []]]]]; rewrite <- H; reflexivity.
Qed.

Lemma lookup_eq collection order_id (w : World C) :
  lookup C mock_data collection order_id w
  = (Return (find_record (default [] (mock_data !! collection)) order_id),
     mkWorld (faq_file w) (docs w) (index w)
       (calls w ++ [EvLookup collection (str_order_id order_id)])).
Proof. reflexivity. Qed.

Lemma structured_not_found collection order_id (w : World C) :
  In collection collections ->
  find_record (default [] (mock_data !! collection)) order_id = None ->
  fst (structured_answer C mock_data collection order_id w)
  = Return (not_found_text collection (Utf8.encode (str_order_id order_id))).
Proof.
  intros Hc Hf. simpl in Hc.
  destruct Hc as [<- | [<- | [<- | [<- | []]]]];
    unfold structured_answer; cbv zeta;
    simpl (String.eqb _ _); cbv iota;
    unfold bind; rewrite lookup_eq, Hf; reflexivity.
Qed.

Lemma field_eq data key (w : World C) :
  field C data key w =
    match fields data !! key with
    | Some v => (Return (Utf8.encode (py_str v)), w)
    | None => (Raise (KeyError key), w)
    end.
Proof. unfold field. now destruct (fields data !! key). Qed.

Lemma structured_found collection order_id data (w : World C) :
  In collection collections ->
  find_record (default [] (mock_data !! collection)) order_id = Some data ->
  record_truthy data = true ->
  (collection = "order_status" -> default [] (items data) = []) ->
  match first_missing (fields data) (fields_read collection) with
  | Some key =>
      fst (structured_answer C mock_data collection order_id w) = Raise (KeyError key)
  | None =>
      exists text,
        fst (structured_answer C mock_data collection order_id w) = Return text
  end.
Proof.
  intros Hc Hf Ht Hi.
  cut (forall r, r = fst (structured_answer C mock_data collection order_id w) ->
         match first_missing (fields data) (fields_read collection) with
         | Some key => r = Raise (KeyError key)
         | None => exists text, r = Return text
         end); [intros H; exact (H _ eq_refl)|].
  intros r Hr. simpl in Hc.
  destruct Hc as [<- | [<- | [<- | [<- | []]]]];
    unfold structured_answer in Hr; cbv zeta in Hr;
    simpl (String.eqb _ _) in Hr; cbv iota in Hr;
    unfold bind at 1 in Hr; rewrite lookup_eq, Hf, Ht in Hr;
    try (rewrite (Hi eq_refl) in Hr; cbn [item_lines] in Hr;
         unfold bind at 1, ret at 1 in Hr);
    unfold fields_read; simpl (String.eqb _ _); cbv iota;
    cbn [first_missing];
    repeat (unfold bind at 1 in Hr; rewrite field_eq in Hr;
            match type of Hr with
            | context [fields data !! ?k] => destruct (fields data !! k)
            end;
            cbv iota beta in Hr);
    subst r; first [ reflexivity | eexists; reflexivity ].
Qed.

End Tools.

End ToolFacts.

(** X9. When the label is one of the four structured tools, the message is
    no policy query and no record of the collection matches the identifier
    extracted, chat answers with the not-found text of that collection, which
    shows the identifier as typed, after one lookup and nothing else. *)
Theorem missing_record_reply
    (C : Collaborators) (mock_data : gmap string (list JRecord))
    (message : string) (w : World C) (id : string) :
  In (intent (classify_intent message)) Spec2.collections ->
  is_policy_query message = false ->
  extract_order_id message = Some id ->
  find_record (default [] (mock_data !! intent (classify_intent message))) (Some id)
  = None ->
  chat C mock_data message w
  = (Return (Spec2.not_found_text (intent (classify_intent message)) id),
     mkWorld (faq_file w) (docs w) (index w)
       (calls w ++ [EvLookup (intent (classify_intent message)) id])).
Proof.
  intros Hc Hp He Hf.
  rewrite (ToolFacts.chat_structured C mock_data message w id Hc Hp He).
  rewrite (surjective_pairing (structured_answer _ _ _ _ _)).
  rewrite (ToolFacts.structured_not_found C mock_data _ _ w Hc Hf).
  rewrite EffectFacts.structured_answer_calls.
  rewrite bool_decide_eq_true_2 by assumption.
  cbn [str_order_id]. rewrite (ToolFacts.encode_extracted message id He).
  reflexivity.
Qed.

Lemma missing_record_reply_witness :
  chat Sample.collab ∅ "Where is my order 123456" (Sample.started Sample.corpus)
  = (Return "❌ No data found for order #123456.",
     mkWorld Sample.corpus Sample.corpus (build_index Sample.collab Sample.corpus)
       [EvLoadFaq; EvLookup "order_status" "123456"]).
Proof.
  apply (missing_record_reply Sample.collab ∅ "Where is my order 123456"
           (Sample.started Sample.corpus) "123456");
    [simpl; tauto | reflexivity | reflexivity | reflexivity].
Defined.

(** X10. When a record is found, chat reads its fields in the order of the
    reply and raises KeyError for the first one that the record lacks; it
    returns a reply only when the record has them all.  (For order_status
    this is stated for a record without items.) *)
Theorem found_record_reply
    (C : Collaborators) (mock_data : gmap string (list JRecord))
    (message : string) (w : World C) (id : string) (data : JRecord) :
  In (intent (classify_intent message)) Spec2.collections ->
  is_policy_query message = false ->
  extract_order_id message = Some id ->
  find_record (default [] (mock_data !! intent (classify_intent message))) (Some id)
  = Some data ->
  (intent (classify_intent message) = "order_status" -> default [] (items data) = []) ->
  match Spec2.first_missing (fields data)
          (Spec2.fields_read (intent (classify_intent message))) with
  | Some key => fst (chat C mock_data message w) = Raise (KeyError key)
  | None => exists text, fst (chat C mock_data message w) = Return text
  end.
Proof.
  intros Hc Hp He Hf Hi.
  rewrite (ToolFacts.chat_structured C mock_data message w id Hc Hp He).
  apply ToolFacts.structured_found; try assumption.
  eapply ToolFacts.found_truthy; [|exact Hf].
  apply ToolFacts.digits_not_None.
  unfold extract_order_id in He.
  destruct (Re.search message) as [m|] eqn:E; [|discriminate].
  injection He as <-. now apply (CaseSearchFacts.search_digits message).
Qed.

(** X11. find_record returns the first record of the list that matches the
    identifier, by the text of its order_id field or by its ticket_id field
    being TKT- followed by the identifier; records after it are not looked
    at, and the result is nothing exactly when no record matches. *)
Theorem find_record_first_match (records : list JRecord) (order_id : option string) :
  match find_record records order_id with
  | Some rec =>
      exists before after,
        records = before ++ rec :: after
        /\ Spec2.record_matches order_id rec
        /\ Forall (fun r => ~ Spec2.record_matches order_id r) before
  | None => Forall (fun r => ~ Spec2.record_matches order_id r) records
  end.
Proof.
  assert (Hm : forall rec,
    (String.eqb (str_get (fields rec) "order_id") (str_order_id order_id)
     || String.eqb (str_get (fields rec) "ticket_id") ("TKT-" +:+ str_order_id order_id))
    = true <-> Spec2.record_matches order_id rec).
  { intros rec. unfold Spec2.record_matches.
    now rewrite orb_true_iff, !String.eqb_eq. }
  unfold find_record. induction records as [|r records IH]; simpl; [constructor|].
  destruct (_ || _) eqn:E.
  - exists [], records. split; [reflexivity|]. split; [now apply Hm | constructor].
  - assert (Hr : ~ Spec2.record_matches order_id r).
    { intros H. apply Hm in H. congruence. }
    destruct (List.find _ records) as [rec|].
    + destruct IH as [before [after [-> [H1 H2]]]].
      exists (r :: before), after. split; [reflexivity|]. split; [assumption|].
      now constructor.
    + now constructor.
Qed.

(** X12. The ticket that escalate_issue creates for an order follows the
    convention that find_record reads: a record that carries this ticket_id
    is found under the order's identifier, without an order_id field; and two
    orders never share a ticket. *)
Theorem escalation_ticket_found (order_id : string) :
  (forall (rec : JRecord) (rest : list JRecord),
     fields rec !! "ticket_id"
     = Some (SStr (escalation_ticket_id (escalate_issue order_id))) ->
     find_record (rec :: rest) (Some order_id) = Some rec)
  /\ (forall other,
        escalation_ticket_id (escalate_issue other)
        = escalation_ticket_id (escalate_issue order_id) ->
        other = order_id).
Proof.
  split.
  - intros rec rest H. unfold find_record, str_get. simpl. rewrite H. simpl.
    now rewrite String.eqb_refl, orb_true_r.
  - intros other H. simpl in H. now apply String.app_inj in H.
Qed.

Lemma escalation_ticket_found_witness :
  find_record
    [mkRecord {[ "ticket_id" := SStr "TKT-20001" ]} None;
     mkRecord {[ "order_id" := SStr "20001" ]} None]
    (Some "20001")
  = Some (mkRecord {[ "ticket_id" := SStr "TKT-20001" ]} None).
Proof.
  destruct (escalation_ticket_found "20001") as [H _].
  apply H. apply lookup_singleton_eq.
Defined.

(** X13. An identifier extracted from a message is never one of the two
    identifiers for which get_order fails (error500, notfound): get_order
    answers it with the order record that repeats the identifier. *)
Theorem extracted_id_is_served (message id : string) :
  extract_order_id message = Some id ->
  get_order id
  = inr (mkOrderStatus id "shipped" "2026-01-10" [mkItem "ABC123" "Shoes" 1]).
Proof.
  intros He. unfold extract_order_id in He.
  destruct (Re.search message) as [m|] eqn:E; [|discriminate].
  injection He as <-. apply CaseSearchFacts.search_digits in E.
  unfold get_order.
  destruct (String.eqb m "error500") eqn:E1.
  { apply String.eqb_eq in E1. subst m. discriminate. }
  destruct (String.eqb m "notfound") eqn:E2.
  { apply String.eqb_eq in E2. subst m. discriminate. }
  reflexivity.
Qed.

Lemma extracted_id_is_served_witness :
  get_order "123456"
  = inr (mkOrderStatus "123456" "shipped" "2026-01-10" [mkItem "ABC123" "Shoes" 1]).
Proof.
  apply (extracted_id_is_served "Where is my order 123456" "123456"). reflexivity.
Defined.

Lemma found_record_reply_witness :
  let ticket : JRecord :=
    mkRecord (<["status" := SStr "open"]> {[ "ticket_id" := SStr "TKT-77777" ]}) None in
  let mock : gmap string (list JRecord) := {[ "escalation" := [ticket] ]} in
  fst (chat Sample.collab mock "I have a complaint about order 77777"
         (Sample.started Sample.corpus))
  = Raise (KeyError "assigned_to").
Proof.
  cbv zeta.
  assert (Hf : find_record
                 (default []
                    (({[ "escalation" :=
                          [mkRecord
                             (<["status" := SStr "open"]>
                                {[ "ticket_id" := SStr "TKT-77777" ]}) None] ]}
                      : gmap string (list JRecord))
                     !! intent (classify_intent "I have a complaint about order 77777")))
                 (Some "77777")
               = Some (mkRecord
                         (<["status" := SStr "open"]>
                            {[ "ticket_id" := SStr "TKT-77777" ]}) None))
    by (vm_compute; reflexivity).
  pose proof (found_record_reply Sample.collab _
                "I have a complaint about order 77777" (Sample.started Sample.corpus)
                "77777" _
                (or_intror (or_intror (or_intror (or_introl eq_refl))))
                eq_refl eq_refl Hf (fun H => ltac:(discriminate H))) as H.
  vm_compute in H. vm_compute. exact H.
Defined.

(** ** The idempotency stores over many requests *)

Module LedgerFacts.

Lemma refund_order_ledger (id : string) (st : Ledgers) :
  processed_refunds (snd (refund_order id st)) = {[id]} ∪ processed_refunds st
  /\ processed_returns (snd (refund_order id st)) = processed_returns st.
Proof.
  unfold refund_order.
  destruct (bool_decide (id ∈ processed_refunds st)) eqn:E; simpl;
    split; try reflexivity.
  apply bool_decide_eq_true_1 in E. set_solver.
Qed.

Lemma return_order_ledger (id : string) (st : Ledgers) :
  processed_returns (snd (return_order id st)) = {[id]} ∪ processed_returns st
  /\ processed_refunds (snd (return_order id st)) = processed_refunds st.
Proof.
  unfold return_order.
  destruct (bool_decide (id ∈ processed_returns st)) eqn:E; simpl;
    split; try reflexivity.
  apply bool_decide_eq_true_1 in E. set_solver.
Qed.

End LedgerFacts.

(** X14. When refund requests are served one after the other, the request
    for an identifier is answered refund_processed if the identifier is
    neither in the ledger at the start nor among the earlier requests, and
    already_refunded otherwise; in the end the ledger holds what it held plus
    every identifier requested, and the ledger of returns is as it was. *)
Theorem refunds_processed_once (ids : list string) (st : Ledgers) :
  processed_refunds (snd (serve_refunds ids st))
  = list_to_set ids ∪ processed_refunds st
  /\ processed_returns (snd (serve_refunds ids st)) = processed_returns st
  /\ List.length (fst (serve_refunds ids st)) = List.length ids
  /\ forall i id r,
       ids !! i = Some id -> fst (serve_refunds ids st) !! i = Some r ->
       refund_order_id r = id
       /\ refund_status r =
            if bool_decide (id ∈ processed_refunds st \/ id ∈ take i ids)
            then "already_refunded" else "refund_processed".
Proof.
  revert st. induction ids as [|id0 ids IH]; intros st.
  - simpl. split; [set_solver|]. split; [reflexivity|]. split; [reflexivity|].
    intros i id r H. discriminate H.
  - simpl. destruct (refund_order id0 st) as [r0 st1] eqn:E0.
    pose proof (LedgerFacts.refund_order_ledger id0 st) as [L1 L2].
    rewrite E0 in L1, L2. simpl in L1, L2.
    specialize (IH st1). destruct (serve_refunds ids st1) as [rs st2]. simpl in IH |- *.
    destruct IH as [H1 [H2 [H3 H4]]].
    split; [rewrite H1, L1; set_solver|]. split; [congruence|].
    split; [now rewrite H3|].
    intros [|i] id r Hi Hr; simpl in Hi, Hr.
    + unfold refund_order in E0.
      destruct (bool_decide (id0 ∈ processed_refunds st)) eqn:Eb;
        injection E0 as <- <-; injection Hi as <-; injection Hr as <-; simpl.
      * apply bool_decide_eq_true_1 in Eb.
        split; [reflexivity|]. rewrite bool_decide_eq_true_2; [reflexivity | now left].
      * apply bool_decide_eq_false_1 in Eb.
        split; [reflexivity|]. rewrite bool_decide_eq_false_2; [reflexivity|].
        intros [H | H]; [contradiction | set_solver].
    + destruct (H4 i id r Hi Hr) as [Hid Hs]. split; [exact Hid|].
      rewrite Hs. erewrite bool_decide_ext; [reflexivity|]. rewrite L1. set_solver.
Qed.

(** X15. The same for return requests: the reason is size_issue for the
    first request of an identifier and duplicate_request for every later one,
    the ledger of returns gains the identifiers requested and the ledger of
    refunds is as it was. *)
Theorem returns_processed_once (ids : list string) (st : Ledgers) :
  processed_returns (snd (serve_returns ids st))
  = list_to_set ids ∪ processed_returns st
  /\ processed_refunds (snd (serve_returns ids st)) = processed_refunds st
  /\ List.length (fst (serve_returns ids st)) = List.length ids
  /\ forall i id r,
       ids !! i = Some id -> fst (serve_returns ids st) !! i = Some r ->
       return_order_id r = id
       /\ return_reason r =
            if bool_decide (id ∈ processed_returns st \/ id ∈ take i ids)
            then "duplicate_request" else "size_issue".
Proof.
  revert st. induction ids as [|id0 ids IH]; intros st.
  - simpl. split; [set_solver|]. split; [reflexivity|]. split; [reflexivity|].
    intros i id r H. discriminate H.
  - simpl. destruct (return_order id0 st) as [r0 st1] eqn:E0.
    pose proof (LedgerFacts.return_order_ledger id0 st) as [L1 L2].
    rewrite E0 in L1, L2. simpl in L1, L2.
    specialize (IH st1). destruct (serve_returns ids st1) as [rs st2]. simpl in IH |- *.
    destruct IH as [H1 [H2 [H3 H4]]].
    split; [rewrite H1, L1; set_solver|]. split; [congruence|].
    split; [now rewrite H3|].
    intros [|i] id r Hi Hr; simpl in Hi, Hr.
    + unfold return_order in E0.
      destruct (bool_decide (id0 ∈ processed_returns st)) eqn:Eb;
        injection E0 as <- <-; injection Hi as <-; injection Hr as <-; simpl.
      * apply bool_decide_eq_true_1 in Eb.
        split; [reflexivity|]. rewrite bool_decide_eq_true_2; [reflexivity | now left].
      * apply bool_decide_eq_false_1 in Eb.
        split; [reflexivity|]. rewrite bool_decide_eq_false_2; [reflexivity|].
        intros [H | H]; [contradiction | set_solver].
    + destruct (H4 i id r Hi Hr) as [Hid Hs]. split; [exact Hid|].
      rewrite Hs. erewrite bool_decide_ext; [reflexivity|]. rewrite L1. set_solver.
Qed.

(** X16. Refunds and returns keep separate ledgers: a refund request does
    not change the answer to a return request, nor a return request the
    answer to a refund request, and the two can be served in either order
    with the same ledgers in the end. *)
Theorem refund_and_return_independent (a b : string) (st : Ledgers) :
  fst (return_order b (snd (refund_order a st))) = fst (return_order b st)
  /\ fst (refund_order a (snd (return_order b st))) = fst (refund_order a st)
  /\ snd (return_order b (snd (refund_order a st)))
     = snd (refund_order a (snd (return_order b st))).
Proof.
  unfold refund_order, return_order.
  destruct (bool_decide (a ∈ processed_refunds st)) eqn:Ea;
    destruct (bool_decide (b ∈ processed_returns st)) eqn:Eb; simpl;
    rewrite ?Ea, ?Eb; now repeat split.
Qed.

(** ** Reload and retrieval *)

Module LoadFacts.
Import Aux RagFacts Spec2.




End LoadFacts.

(** X17. reload_faq replaces the corpus by the entries of the FAQ file
    before it builds the index: when the index can be built it is the index
    of the new corpus, and when the embeddings have no second axis the call
    raises IndexError and leaves the new corpus with the index it found.
    Reloading twice from the same file gives the corpus and index of one
    reload. *)
Theorem reload_faq_replaces_corpus (C : Collaborators) (w : World C) :
  let w' := snd (reload_faq C w) in
  faq_file w' = faq_file w
  /\ docs w' = faq_file w
  /\ calls w' = calls w ++ [EvLoadFaq]
  /\ match build_index C (faq_file w) with
     | Some ix =>
         fst (reload_faq C w) = Return "FAQ reloaded successfully."
         /\ index w' = Some ix
     | None => fst (reload_faq C w) = Raise IndexError /\ index w' = index w
     end
  /\ docs (snd (reload_faq C w')) = docs w'
  /\ index (snd (reload_faq C w')) = index w'.
Proof.
  cbv zeta. rewrite !ChatFacts.reload_faq_eq. unfold Aux.loaded_from. simpl.
  destruct (build_index C (faq_file w)); now repeat split.
Qed.





(** ** The generator built on first use *)

(** X20. get_generator builds the pipeline on the first call only: over any
    number of calls the pipeline is built once if none was kept and at least
    one call is made, and not at all otherwise; every call returns the
    pipeline that the world keeps in the end. *)
Theorem generator_built_once {Pipeline : Type} (build : Pipeline) (n : nat)
    (w : GenWorld Pipeline) :
  let (gs, w') := get_generator_times Pipeline build n w in
  builds Pipeline w'
  = builds Pipeline w
    + match _generator Pipeline w, n with
      | None, S _ => 1
      | _, _ => 0
      end
  /\ List.length gs = n
  /\ Forall (fun g => _generator Pipeline w' = Some g) gs
  /\ (_generator Pipeline w <> None -> w' = w).
Proof.
  revert w. induction n as [|n IH]; intros w; simpl.
  - split; [destruct (_generator Pipeline w); lia|]. now repeat split.
  - unfold get_generator at 1.
    destruct (_generator Pipeline w) as [g|] eqn:E.
    + specialize (IH w). destruct (get_generator_times Pipeline build n w) as [gs w'].
      rewrite E in IH. destruct IH as [H1 [H2 [H3 H4]]].
      assert (Hw : w' = w) by (apply H4; discriminate). subst w'.
      split; [lia|]. split; [simpl; lia|]. split; [now constructor | reflexivity].
    + specialize (IH (mkGenWorld Pipeline (Some build) (S (builds Pipeline w)))).
      destruct (get_generator_times Pipeline build n _) as [gs w'].
      simpl in IH. destruct IH as [H1 [H2 [H3 H4]]].
      assert (Hw : w' = mkGenWorld Pipeline (Some build) (S (builds Pipeline w)))
        by (apply H4; discriminate). subst w'.
      split; [simpl; lia|]. split; [simpl; lia|].
      split; [now constructor | congruence].
Qed.

(** ** The generated reply *)

Module StripFacts.
Import StrFacts Spec2.

Lemma lstrip_spec (s : string) :
  exists a, s = a +:+ Str.lstrip s /\ blank a /\ solid (Str.head (Str.lstrip s)).
Proof.
  unfold blank. induction s as [|c s IH].
  - exists "". now repeat split.
  - simpl. destruct (Char.is_space c) eqn:E.
    + destruct IH as [a [Hs [Ha Hh]]]. exists (String c a).
      rewrite app_cons, <- Hs. simpl. rewrite E. now repeat split.
    + exists "". simpl. now repeat split.
Qed.

Lemma rstrip_spec (s : string) :
  exists b, s = Str.rstrip s +:+ b /\ blank b /\ solid (Str.last (Str.rstrip s))
            /\ (Str.rstrip s = "" \/ Str.head (Str.rstrip s) = Str.head s).
Proof.
  unfold blank. induction s as [|c s IH].
  - exists "". simpl. repeat split. now left.
  - destruct IH as [b [Hs [Hb [Hl Hh]]]]. cbn [Str.rstrip].
    destruct (Str.rstrip s) as [|x r] eqn:Er.
    + rewrite app_nil_l in Hs. subst b.
      destruct (Char.is_space c) eqn:E.
      * exists (String c s). simpl. rewrite E. repeat split; [assumption | now left].
      * exists s. simpl. repeat split; [assumption | assumption | now right].
    + exists b. rewrite app_cons, <- Hs.
      split; [reflexivity|]. split; [assumption|].
      split; [|now right].
      rewrite (last_cons c (String x r)). rewrite last_cons in Hl |- *.
      now destruct (Str.last r).
Qed.

(** [s.strip()] removes white space at both ends and nothing else. *)
Lemma strip_spec (s : string) :
  exists a b, s = a +:+ Str.strip s +:+ b /\ blank a /\ blank b
              /\ solid (Str.head (Str.strip s)) /\ solid (Str.last (Str.strip s)).
Proof.
  unfold Str.strip.
  destruct (lstrip_spec s) as [a [Ha [Hba Hh]]].
  destruct (rstrip_spec (Str.lstrip s)) as [b [Hb [Hbb [Hl Hk]]]].
  exists a, b. split; [now rewrite <- Hb|]. split; [assumption|]. split; [assumption|].
  split; [|assumption].
  destruct Hk as [-> | ->]; [exact I | assumption].
Qed.

End StripFacts.

(** X21. When retrieval returns entries, the FAQ branch calls the generator
    once, with at most 1000 new tokens, on the prompt built from the entries
    joined by line breaks and from the message; the reply is the generated
    text without the white space at its two ends, and nothing else of it is
    removed. *)
Theorem generated_reply_is_stripped
    (C : Collaborators) (mock_data : gmap string (list JRecord))
    (message : string) (w w1 : World C) (entry : string) (entries : list string) :
  Spec.faq_routed message ->
  retrieve_docs C message default_k default_threshold w = (Return (entry :: entries), w1) ->
  let prompt := prompt_of (Str.join nl (entry :: entries)) message in
  exists a r b,
    generator C prompt 1000 = a +:+ r +:+ b
    /\ Spec2.blank a /\ Spec2.blank b
    /\ Spec2.solid (Str.head r) /\ Spec2.solid (Str.last r)
    /\ chat C mock_data message w
       = (Return (Utf8.encode r),
          mkWorld (faq_file w1) (docs w1) (index w1)
            (calls w1 ++ [EvGenerate prompt 1000])).
Proof.
  intros Hr He. cbv zeta.
  destruct (StripFacts.strip_spec
              (generator C (prompt_of (Str.join nl (entry :: entries)) message) 1000))
    as [a [b [Hs [Ha [Hb [Hh Hl]]]]]].
  exists a, (Str.strip (generator C (prompt_of (Str.join nl (entry :: entries)) message)
                          1000)), b.
  split; [exact Hs|]. split; [exact Ha|]. split; [exact Hb|].
  split; [exact Hh|]. split; [exact Hl|].
  rewrite (ChatFacts.chat_faq_route C mock_data message w Hr).
  unfold faq_answer, bind. rewrite He. reflexivity.
Qed.

Lemma generated_reply_is_stripped_witness :
  let q := "How many days do I have to return an item?" in
  let w1 : World Sample.collab :=
    mkWorld Sample.corpus Sample.corpus (build_index Sample.collab Sample.corpus)
      [EvLoadFaq; EvSearch q 4] in
  let prompt := prompt_of (Str.join nl ["Refunds are processed in 5-7 business days."]) q in
  exists a r b,
    generator Sample.collab prompt 1000 = a +:+ r +:+ b
    /\ Spec2.blank a /\ Spec2.blank b
    /\ Spec2.solid (Str.head r) /\ Spec2.solid (Str.last r)
    /\ chat Sample.collab ∅ q (Sample.started Sample.corpus)
       = (Return (Utf8.encode r),
          mkWorld (faq_file w1) (docs w1) (index w1)
            (calls w1 ++ [EvGenerate prompt 1000])).
Proof.
  cbv zeta.
  apply (generated_reply_is_stripped Sample.collab ∅
           "How many days do I have to return an item?"
           (Sample.started Sample.corpus)
           (mkWorld Sample.corpus Sample.corpus (build_index Sample.collab Sample.corpus)
              [EvLoadFaq; EvSearch "How many days do I have to return an item?" 4])
           "Refunds are processed in 5-7 business days." []).
  - split; [now left | now left].
  - reflexivity.
Defined.

(** ** The exceptions of chat *)

Module ExnFacts.
Import Aux Spec2.

Section Exceptions.
Variable C : Collaborators.
Variable mock_data : gmap string (list JRecord).











End Exceptions.

End ExnFacts.



(** ** Which order kind *)

(** X23. For a query that the cascade takes as an order query (a whole word
    of four or more digits and an order action), the kind is decided by two
    keywords of the lower-cased query: refund_status when it contains refund,
    else return_request when it contains return, else order_status. *)
Theorem order_kind_by_keyword (query : string) :
  Spec.has_digit_word query ->
  has_order_action query = true ->
  intent (classify_intent query)
  = if Str.contains "refund" (Str.lower query) then "refund_status"
    else if Str.contains "return" (Str.lower query) then "return_request"
    else "order_status".
Proof.
  intros Hid Ha. unfold classify_intent. cbv zeta.
  rewrite (IntentFacts.has_order_id_lower query Hid).
  rewrite IntentFacts.has_order_action_lower, Ha. cbn [andb].
  assert (Hsub : forall p k, Str.contains k p = true ->
                   Str.contains k (Str.lower query) = false ->
                   Str.contains p (Str.lower query) = false).
  { intros p k Hk Hn. destruct (Str.contains p (Str.lower query)) eqn:E; [|reflexivity].
    rewrite (CascadeFacts.contains_trans _ _ _ Hk E) in Hn. discriminate. }
  destruct (Str.contains "refund" (Str.lower query)) eqn:E1; [reflexivity|].
  rewrite (Hsub "refund status" "refund" eq_refl E1),
          (Hsub "refund order" "refund" eq_refl E1). cbn [orb].
  destruct (Str.contains "return" (Str.lower query)) eqn:E2; [reflexivity|].
  rewrite (Hsub "return status" "return" eq_refl E2),
          (Hsub "return request" "return" eq_refl E2),
          (Hsub "return order" "return" eq_refl E2). cbn [orb].
  now destruct (_ || _ || _).
Qed.

Lemma order_kind_by_keyword_witness :
  intent (classify_intent "Track my RETURN for order 445566") = "return_request".
Proof.
  rewrite (order_kind_by_keyword "Track my RETURN for order 445566").
  - reflexivity.
  - exists "Track my RETURN for order ", "445566", "".
    unfold Spec.run_at, Spec.digits. simpl. repeat split; lia.
  - reflexivity.
Defined.

(** X24. has_order_action holds exactly when the query mentions a strong
    order-action phrase, or mentions a weak one together with the letters my
    anywhere in the query, also inside another word. *)
Theorem has_order_action_iff (query : string) :
  has_order_action query = true
  <-> (exists p, In p STRONG_ORDER_ACTIONS /\ Spec.mentions p query)
      \/ ((exists p, In p WEAK_ORDER_ACTIONS /\ Spec.mentions p query)
          /\ Spec.mentions "my" query).
Proof.
  assert (Hw : forall p, In p WEAK_ORDER_ACTIONS -> Str.lower p = p).
  { simpl. intros p H. repeat (destruct H as [<- | H]; [reflexivity|]). contradiction. }
  rewrite CascadeFacts.has_order_action_orb, orb_true_iff, !List.existsb_exists.
  split.
  - intros [[p [Hin Hp]] | [p [Hin Hp]]].
    + left. exists p. split; [assumption|]. apply IntentFacts.mentions_contains.
      now rewrite (IntentFacts.strong_actions_lower p Hin).
    + right. apply andb_true_iff in Hp as [H1 H2]. split.
      * exists p. split; [assumption|]. apply IntentFacts.mentions_contains.
        now rewrite (Hw p Hin).
      * now apply IntentFacts.mentions_contains.
  - intros [[p [Hin Hp]] | [[p [Hin Hp]] Hmy]].
    + left. exists p. split; [assumption|]. apply IntentFacts.mentions_contains in Hp.
      now rewrite (IntentFacts.strong_actions_lower p Hin) in Hp.
    + right. exists p. split; [assumption|].
      apply IntentFacts.mentions_contains in Hp, Hmy.
      rewrite (Hw p Hin) in Hp. apply andb_true_iff. now split.
Qed.

(** ** Well-formed worlds *)

(** X25. Against collaborators that keep their contract the world is always
    either not loaded yet or holds a corpus with the index built from it:
    this is so at start-up, a reload gives a loaded world, and retrieve_docs
    and chat keep the world well formed. *)
Theorem world_stays_wellformed
    (C : Collaborators) (mock_data : gmap string (list JRecord)) :
  IndexContract C ->
  (forall file, Spec.wellformed (mkWorld (C:=C) file [] None []))
  /\ (forall w : World C, Spec.loaded (snd (reload_faq C w)))
  /\ (forall query k t (w : World C),
        Spec.wellformed w -> Spec.wellformed (snd (retrieve_docs C query k t w)))
  /\ (forall message (w : World C),
        Spec.wellformed w -> Spec.wellformed (snd (chat C mock_data message w))).
Proof.
  intros HC. split; [apply ContractFacts.wellformed_boot|].
  split; [now apply ContractFacts.wellformed_reload|].
  split; [intros; now apply ContractFacts.wellformed_retrieve|].
  intros; now apply ContractFacts.wellformed_chat.
Qed.

Lemma world_stays_wellformed_witness :
  Spec.wellformed
    (snd (chat Sample.collab ∅ "What is your return policy" (Sample.boot Sample.corpus))).
Proof.
  destruct (world_stays_wellformed Sample.collab ∅ SampleFacts.contract)
    as [Hb [_ [_ Hc]]].
  apply Hc. apply Hb.
Defined.
